(** * vscode-ember-template-lint: the diagnostics-refresh pipeline

    A shallow embedding of [src/linter.ts]: the debounced entry point
    [updateDiagnostics], the lint cycle [lintTemplate] and the mapping
    [getDiagnosticForLintResult], together with the parts of the host
    (timers, the diagnostic collection, the console, the child process,
    the file system) that those functions touch; of [src/extension.ts],
    which wires them to the editor's events; and of what the two earlier
    revisions of the linter do differently. *)

From Stdlib Require Import ZArith String Ascii List Bool Lia.
From stdpp Require Import base option list gmap strings.
Import ListNotations.

#[local] Set Warnings "-register-all".
Local Open Scope string_scope.
Local Open Scope Z_scope.

(** ** JavaScript values

    The values the program handles are [undefined] and whatever
    [JSON.parse] returns.  Numbers are modelled as integers, which is what
    the linter emits for [severity], [line] and [column]. *)

Inductive json : Type :=
| JNull
| JBool (b : bool)
| JNum (n : Z)
| JStr (s : string)
| JArr (items : list json)
| JObj (members : list (string * json)).

(** [None] is [undefined]. *)
Abbreviation jsval := (option json).

Inductive JsError : Type :=
| TypeError
| SyntaxError.

Inductive Result (A : Type) : Type :=
| Ok (a : A)
| Throw (e : JsError).
Arguments Ok {A} a.
Arguments Throw {A} e.

(** ** Strings, as the program uses them *)

Module Str.

(** [s.endsWith(suffix)] *)
Definition endsWith (suffix s : string) : bool :=
  let n := String.length s in
  let k := String.length suffix in
  if (k <=? n)%nat
  then String.eqb (String.substring (n - k) k s) suffix
  else false.

(** [s.indexOf(needle)]: the first position, or -1. *)
Definition indexOf (needle s : string) : Z :=
  match String.index 0 needle s with
  | Some i => Z.of_nat i
  | None => -1
  end.

(** [s.substring(0, n)] for a position [n] inside [s]. *)
Definition substring0 (n : Z) (s : string) : string :=
  String.substring 0 (Z.to_nat n) s.

(** [segments.join(sep)] *)
Fixpoint join (sep : string) (segments : list string) : string :=
  match segments with
  | [] => EmptyString
  | [s] => s
  | s :: rest => s ++ sep ++ join sep rest
  end.

Definition is_digit (c : ascii) : bool :=
  let n := nat_of_ascii c in ((48 <=? n) && (n <=? 57))%nat.

Fixpoint digits_value (acc : nat) (s : string) : option nat :=
  match s with
  | EmptyString => Some acc
  | String c rest =>
      if is_digit c
      then digits_value (10 * acc + (nat_of_ascii c - 48))%nat rest
      else None
  end.

(** A property key that is a canonical array index: ["0"], or digits
    without a leading zero. *)
Definition array_index (key : string) : option nat :=
  match key with
  | EmptyString => None
  | String "0" EmptyString => Some 0%nat
  | String "0" _ => None
  | _ => digits_value 0 key
  end.

End Str.

(** ** Property reads and truthiness *)

Module Js.

(** The own property [key] of an object literal; with a repeated key the
    last member wins, as in [JSON.parse]. *)
Fixpoint member (key : string) (members : list (string * json)) : jsval :=
  match members with
  | [] => None
  | (k, v) :: rest =>
      match member key rest with
      | Some v' => Some v'
      | None => if String.eqb k key then Some v else None
      end
  end.

(** [v[key]] for a value [v] that is neither [null] nor [undefined].
    Only own data properties are read; the keys this program reads
    ([rule], [message], [severity], [line], [column], [length] and a
    relative path ending in [.hbs]) name no built-in method. *)
Definition get (v : json) (key : string) : jsval :=
  match v with
  | JObj members => member key members
  | JArr items =>
      if String.eqb key "length" then Some (JNum (Z.of_nat (length items)))
      else match Str.array_index key with
           | Some i => nth_error items i
           | None => None
           end
  | JStr s =>
      if String.eqb key "length" then Some (JNum (Z.of_nat (String.length s)))
      else match Str.array_index key with
           | Some i =>
               match String.get i s with
               | Some c => Some (JStr (String c EmptyString))
               | None => None
               end
           | None => None
           end
  | JNull | JBool _ | JNum _ => None
  end.

(** [v[key]] for any value: reading a property of [null] or [undefined]
    throws. *)
Definition prop (v : jsval) (key : string) : Result jsval :=
  match v with
  | None | Some JNull => Throw TypeError
  | Some o => Ok (get o key)
  end.

(** [if (v)] *)
Definition truthy (v : jsval) : bool :=
  match v with
  | None | Some JNull => false
  | Some (JBool b) => b
  | Some (JNum n) => negb (Z.eqb n 0)
  | Some (JStr s) => negb (String.eqb s EmptyString)
  | Some (JArr _) | Some (JObj _) => true
  end.

End Js.

(** ** The host's diagnostic model *)

Inductive DiagnosticSeverity : Type :=
| Error
| Warning
| Information
| Hint.

(** An argument of the host's [Range] constructor.  On numbers the
    program's arithmetic is evaluated; on any other value the coercing
    [-] and [+] of the runtime are left as they are written. *)
Inductive Coord : Type :=
| CNum (n : Z)
| CRaw (v : json)
| CMinus1 (v : json)
| CPlus1 (v : json).

Definition minus1 (v : json) : Coord :=
  match v with JNum n => CNum (n - 1) | _ => CMinus1 v end.

Definition plus1 (v : json) : Coord :=
  match v with JNum n => CNum (n + 1) | _ => CPlus1 v end.

Definition asis (v : json) : Coord :=
  match v with JNum n => CNum n | _ => CRaw v end.

(** [new Range(startLine, startCharacter, endLine, endCharacter)], taken
    as a record of its four arguments. *)
Record Range : Type := mkRange {
  startLine : Coord;
  startCharacter : Coord;
  endLine : Coord;
  endCharacter : Coord
}.

Record Diagnostic : Type := mkDiagnostic {
  message : jsval;
  severity : DiagnosticSeverity;
  source : string;
  code : jsval;       (* [None]: the property is not set *)
  range : option Range
}.

(** ** [getDiagnosticForLintResult] (linter.ts, lines 70-94) *)

Definition getDiagnosticForLintResult (lintResult : json) : Result Diagnostic :=
  match lintResult with
  | JNull => Throw TypeError   (* destructuring [null], line 71 *)
  | _ =>
      let rule := Js.get lintResult "rule" in
      let message := Js.get lintResult "message" in
      let severity := Js.get lintResult "severity" in
      let line := Js.get lintResult "line" in
      let column := Js.get lintResult "column" in
      Ok {| message := message;
            severity := match severity with
                        | Some (JNum 2) => Error
                        | _ => Information
                        end;
            source := "ember-template-linter";
            code := if Js.truthy rule then rule else None;
            range := match line, column with
                     | Some l, Some c =>
                         Some (mkRange (minus1 l) (asis c) (minus1 l) (plus1 c))
                     | _, _ => None
                     end |}
  end.

(** ** Paths

    An absolute, normalised POSIX path is the list of its segments, root
    first; [fsPath] is its text. *)

Abbreviation Path := (list string).

Module Path.

(** The text of a path, as in [uri.fsPath]. *)
Definition text (p : Path) : string := "/" ++ Str.join "/" p.

(** [path.dirname(p)] *)
Definition dirname (p : Path) : Path := removelast p.

(** Past the common ancestors: one [..] for each directory left of
    [from], then what is left of [to]. *)
Fixpoint relative_segments (from to : Path) : Path :=
  match from, to with
  | f :: from', t :: to' =>
      if String.eqb f t then relative_segments from' to'
      else (map (fun _ => "..") from ++ to)%list
  | _, _ => (map (fun _ => "..") from ++ to)%list
  end.

(** [path.relative(from, to)] *)
Definition relative (from to : Path) : string :=
  Str.join "/" (relative_segments from to).

End Path.

Record TextDocument : Type := mkDocument {
  uri : Path;           (* [document.uri], identified by its path *)
  getText : string      (* [document.getText()] *)
}.

Definition fsPath (document : TextDocument) : string := Path.text (uri document).

(** ** The child process *)

Inductive SpawnError : Type :=
| ENOENT
| EACCES
| ETIMEDOUT.

Record SpawnRequest : Type := mkSpawn {
  command : string;
  args : list string;
  cwd : Path;
  timeout : Z;
  input : string
}.

(** What [cp.spawnSync] returns: [error] is set when the child could not
    be started or was killed on the timeout; [status] is [null] when the
    child was ended by a signal. *)
Record SpawnResult : Type := mkResult {
  signal : option string;
  status : option Z;
  stdout : string;
  stderr : string;
  error : option SpawnError
}.

(** ** The world outside the program *)

Record World : Type := mkWorld {
  fileExists : Path -> bool;
  spawnSync : SpawnRequest -> SpawnResult;
  env_CI : option string;                 (* [process.env.CI] *)
  JSON_parse : string -> option json      (* [None]: a SyntaxError *)
}.

(** Modelled from the spec: [findUp.sync(name, {cwd})] of the find-up
    package, whose source is not part of the repository.  It walks from
    [cwd] upward through the parent directories and returns the path of
    the first [name] found, or nothing once the root has been tried. *)
Fixpoint findUp_walk (exists_ : Path -> bool) (name : string) (up : list string)
  : option Path :=
  let candidate := (rev up ++ [name])%list in
  if exists_ candidate then Some candidate
  else match up with
       | [] => None
       | _ :: parent => findUp_walk exists_ name parent
       end.

(** Modelled from the spec: the entry point of the walk, from [cwd]. *)
Definition findUp_sync (w : World) (name : string) (cwd : Path) : option Path :=
  findUp_walk (fileExists w) name (rev cwd).

(** ** Program and host state *)

(** Lines 14 and 18. *)
Definition DELAY_BEFORE_LINT_MS : Z := 500.
Definition LINT_TIMEOUT_MS : Z := 1000.

(** A timer set by line 48: its callback lints [target]. *)
Record Timer : Type := mkTimer {
  timerId : nat;
  due : Z;
  target : TextDocument
}.

(** One entry per console call of [lintTemplate]. *)
Inductive LogEntry : Type :=
| error_spawn (e : SpawnError)                     (* line 162 *)
| error_before (output : string)                   (* line 178 *)
| error_marker (idx : Z)                           (* line 180 *)
| error_after (output : string)                    (* line 183 *)
| log_reported (len : jsval)                       (* line 194 *)
| error_unparsable (stdout : string) (e : JsError) (* lines 196-199 *)
| error_computed (n : nat) (fsPath : string).      (* line 209 *)

Record State : Type := mkState {
  lintTimeoutId : option nat;                (* line 20 *)
  timers : list Timer;                       (* the host's pending timers *)
  nextTimerId : nat;
  now : Z;                                   (* the clock, in ms *)
  collection : gmap Path (list Diagnostic);  (* the DiagnosticCollection *)
  spawned : list SpawnRequest;               (* child processes started *)
  console : list LogEntry;
  uncaught : list JsError                    (* errors thrown out of a callback *)
}.

Definition diagnosticsOf (st : State) (u : Path) : list Diagnostic :=
  default [] (collection st !! u).

(** ** A state monad with exceptions *)

Definition M (A : Type) : Type := State -> Result A * State.

Definition ret {A} (a : A) : M A := fun st => (Ok a, st).

Definition bind {A B} (c : M A) (k : A -> M B) : M B :=
  fun st =>
    match c st with
    | (Ok a, st') => k a st'
    | (Throw e, st') => (Throw e, st')
    end.

Definition throw {A} (e : JsError) : M A := fun st => (Throw e, st).

Definition modify (f : State -> State) : M unit := fun st => (Ok tt, f st).

Definition gets {A} (f : State -> A) : M A := fun st => (Ok (f st), st).

Definition liftResult {A} (r : Result A) : M A := fun st => (r, st).

Notation "'do' x <- c ; k" := (bind c (fun x => k))
  (at level 10, x name, c at level 100, k at level 200).

(** [items.map(f)] for an [f] that may throw: the first exception ends it. *)
Fixpoint mapResult {A B} (f : A -> Result B) (items : list A) : Result (list B) :=
  match items with
  | [] => Ok []
  | x :: rest =>
      match f x with
      | Throw e => Throw e
      | Ok y =>
          match mapResult f rest with
          | Throw e => Throw e
          | Ok ys => Ok (y :: ys)
          end
      end
  end.

(** *** Host operations *)

Definition console_write (entry : LogEntry) : M unit :=
  modify (fun st =>
    mkState (lintTimeoutId st) (timers st) (nextTimerId st) (now st)
            (collection st) (spawned st) (console st ++ [entry])%list (uncaught st)).

(** [collection.clear()] *)
Definition collection_clear : M unit :=
  modify (fun st =>
    mkState (lintTimeoutId st) (timers st) (nextTimerId st) (now st)
            ∅ (spawned st) (console st) (uncaught st)).

(** [collection.set(uri, diagnostics)] *)
Definition collection_set (u : Path) (diagnostics : list Diagnostic) : M unit :=
  modify (fun st =>
    mkState (lintTimeoutId st) (timers st) (nextTimerId st) (now st)
            (<[u := diagnostics]> (collection st)) (spawned st) (console st) (uncaught st)).

(** [cp.spawnSync(...)]: the call blocks, so the child runs to its end (or
    to the timeout) before anything else happens. *)
Definition cp_spawnSync (w : World) (req : SpawnRequest) : M SpawnResult :=
  fun st =>
    (Ok (spawnSync w req),
     mkState (lintTimeoutId st) (timers st) (nextTimerId st) (now st)
             (collection st) (spawned st ++ [req])%list (console st) (uncaught st)).

Definition set_lintTimeoutId (v : option nat) : M unit :=
  modify (fun st =>
    mkState v (timers st) (nextTimerId st) (now st)
            (collection st) (spawned st) (console st) (uncaught st)).

(** [clearTimeout(id)] *)
Definition clearTimeout (id : nat) : M unit :=
  modify (fun st =>
    mkState (lintTimeoutId st)
            (filter (fun t => timerId t ≠ id) (timers st))
            (nextTimerId st) (now st)
            (collection st) (spawned st) (console st) (uncaught st)).

(** [setTimeout(callback, delay)], the callback being the one of lines
    49-52 for [document]. *)
Definition setTimeout (document : TextDocument) (delay : Z) : M nat :=
  fun st =>
    let id := nextTimerId st in
    (Ok id,
     mkState (lintTimeoutId st)
             (timers st ++ [mkTimer id (now st + delay) document])%list
             (S id) (now st)
             (collection st) (spawned st) (console st) (uncaught st)).

(** ** [lintTemplate] (linter.ts, lines 99-210) *)

Definition lintTemplate (w : World) (document : TextDocument) : M unit :=
  let targetPath := uri document in
  let targetDir := Path.dirname targetPath in
  let configFile := findUp_sync w ".template-lintrc.js" targetDir in
  do lintIssues <-
    match configFile with
    | None => ret (Some (JArr []))
    | Some configFile =>
        let configDir := Path.dirname configFile in
        let targetRelativePath := Path.relative configDir targetPath in
        do result <- cp_spawnSync w
            {| command := "./node_modules/.bin/ember-template-lint";
               args := ["--json"; "--filename"; targetRelativePath];
               cwd := configDir;
               timeout := LINT_TIMEOUT_MS;
               input := getText document |};
        match error result with
        | Some e =>
            do _ <- console_write (error_spawn e);
            ret (Some (JArr []))
        | None =>
            let output := stdout result in
            if negb (bool_decide (status result = Some 0)) && negb (String.eqb output EmptyString)
            then
              do output <-
                (if bool_decide (env_CI w = Some "true")
                 then
                   do _ <- console_write (error_before output);
                   let testRunnerErrorFragmentIdx := Str.indexOf "##[error]" output in
                   do _ <- console_write (error_marker testRunnerErrorFragmentIdx);
                   if negb (Z.eqb testRunnerErrorFragmentIdx (-1))
                   then
                     let output := Str.substring0 testRunnerErrorFragmentIdx output in
                     do _ <- console_write (error_after output);
                     ret output
                   else ret output
                 else ret output);
              (* try { ... } catch (parseErr) { ... }, lines 187-200 *)
              let catch (lintIssues : jsval) (parseErr : JsError) : M jsval :=
                do _ <- console_write (error_unparsable (stdout result) parseErr);
                ret lintIssues in
              match JSON_parse w output with
              | None => catch (Some (JArr [])) SyntaxError
              | Some jsonResult =>
                  match Js.prop (Some jsonResult) targetRelativePath with
                  | Throw e => catch (Some (JArr [])) e
                  | Ok lintIssues =>
                      match Js.prop lintIssues "length" with
                      | Throw e => catch lintIssues e
                      | Ok len =>
                          do _ <- console_write (log_reported len);
                          ret lintIssues
                      end
                  end
              end
            else ret (Some (JArr []))
        end
    end;
  (* lintIssues.map(...), line 207 *)
  do diagnostics <-
    match lintIssues with
    | Some (JArr issues) => liftResult (mapResult getDiagnosticForLintResult issues)
    | _ => throw TypeError
    end;
  do _ <- collection_set (uri document) diagnostics;
  console_write (error_computed (length diagnostics) (fsPath document)).

(** ** [updateDiagnostics] (linter.ts, lines 30-55) *)

Definition updateDiagnostics (document : TextDocument) : M unit :=
  let isHbsFile := Str.endsWith ".hbs" (fsPath document) in
  if negb isHbsFile
  then collection_clear
  else
    do pending <- gets lintTimeoutId;
    do _ <-
      match pending with
      | Some id =>
          do _ <- clearTimeout id;
          set_lintTimeoutId None
      | None => ret tt
      end;
    do id <- setTimeout document DELAY_BEFORE_LINT_MS;
    set_lintTimeoutId (Some id).

(** ** The host's event loop *)

(** The callback of lines 49-52. *)
Definition lintCallback (w : World) (document : TextDocument) : M unit :=
  do _ <- set_lintTimeoutId None;
  lintTemplate w document.

(** The pending timer that is due first; among equals, the one set first. *)
Fixpoint next_timer (ts : list Timer) : option Timer :=
  match ts with
  | [] => None
  | t :: rest =>
      match next_timer rest with
      | Some u => if due u <? due t then Some u else Some t
      | None => Some t
      end
  end.

(** The host takes timer [t] off its queue and runs its callback; an
    exception that leaves the callback is reported by the host and goes
    no further. *)
Definition fire (world : Z -> World) (t : Timer) (st : State) : State :=
  let at_ := Z.max (now st) (due t) in
  let st1 :=
    mkState (lintTimeoutId st)
            (filter (fun u => timerId u ≠ timerId t) (timers st))
            (nextTimerId st) at_
            (collection st) (spawned st) (console st) (uncaught st) in
  match lintCallback (world at_) (target t) st1 with
  | (Ok _, st2) => st2
  | (Throw e, st2) =>
      mkState (lintTimeoutId st2) (timers st2) (nextTimerId st2) (now st2)
              (collection st2) (spawned st2) (console st2) (uncaught st2 ++ [e])%list
  end.

Fixpoint run_timers (world : Z -> World) (until : Z) (fuel : nat) (st : State) : State :=
  match fuel with
  | O => st
  | S fuel' =>
      match next_timer (timers st) with
      | Some t =>
          if due t <=? until
          then run_timers world until fuel' (fire world t st)
          else st
      | None => st
      end
  end.

(** Let the clock reach [until], firing in turn every timer that comes due. *)
Definition advance (world : Z -> World) (until : Z) (st : State) : State :=
  let st' := run_timers world until (length (timers st)) st in
  mkState (lintTimeoutId st') (timers st') (nextTimerId st') (Z.max (now st') until)
          (collection st') (spawned st') (console st') (uncaught st').

(** A document event (opened, saved, edited, became active; extension.ts,
    lines 26-47) arriving [gap] ms after the present moment: each handler
    calls [updateDiagnostics] with the one shared collection. *)
Definition request (world : Z -> World) (gap : Z) (document : TextDocument) (st : State)
  : State :=
  snd (updateDiagnostics document (advance world (now st + gap) st)).

(** A burst: a first request now, then one request after each gap. *)
Definition burst (world : Z -> World) (first : TextDocument)
    (rest : list (Z * TextDocument)) (st : State) : State :=
  fold_left (fun st gd => request world (fst gd) (snd gd) st) rest
            (snd (updateDiagnostics first st)).

(** The document of the last request of a burst. *)
Definition last_document (first : TextDocument) (rest : list (Z * TextDocument))
  : TextDocument :=
  List.last (map snd rest) first.

(** The state of a freshly activated extension. *)
Definition initial : State :=
  mkState None [] 0%nat 0 ∅ [] [] [].

(** The timer slot of line 20 owns the only pending timer. *)
Definition slot_owns_queue (st : State) : Prop :=
  match lintTimeoutId st with
  | None => timers st = []
  | Some id => exists t, timers st = [t] /\ timerId t = id
  end.

(** [r] is the child process that [lintTemplate] starts for [document]. *)
Definition targets (r : SpawnRequest) (document : TextDocument) : Prop :=
  command r = "./node_modules/.bin/ember-template-lint" /\
  args r = ["--json"; "--filename"; Path.relative (cwd r) (uri document)] /\
  timeout r = LINT_TIMEOUT_MS /\
  input r = getText document.

(** ** A reference [JSON.parse]

    Used for the concrete runs below.  It reads the JSON texts whose
    numbers are integer literals and whose strings have no [\u] escape,
    and returns what [JSON.parse] returns on them; every other text,
    malformed or outside this fragment, is refused. *)

Module Json.

Definition is_ws (c : ascii) : bool :=
  let n := nat_of_ascii c in
  ((n =? 32) || (n =? 9) || (n =? 10) || (n =? 13))%nat.

Fixpoint skip_ws (s : string) : string :=
  match s with
  | String c rest => if is_ws c then skip_ws rest else s
  | EmptyString => s
  end.

(** The digits at the front of [s], as a number, and what follows. *)
Fixpoint digits (acc : Z) (s : string) : Z * string :=
  match s with
  | String c rest =>
      if Str.is_digit c
      then digits (10 * acc + Z.of_nat (nat_of_ascii c - 48)) rest
      else (acc, s)
  | EmptyString => (acc, s)
  end.

Definition ends_number (s : string) : bool :=
  match s with
  | String "." _ | String "e" _ | String "E" _ => false
  | _ => true
  end.

(** [0] or a non-zero digit followed by digits, with nothing of a
    fraction or exponent after it. *)
Definition natural (s : string) : option (Z * string) :=
  match s with
  | String "0" rest => if ends_number rest then
                         match rest with
                         | String c _ => if Str.is_digit c then None else Some (0, rest)
                         | EmptyString => Some (0, rest)
                         end
                       else None
  | String c _ =>
      if Str.is_digit c
      then let '(n, rest) := digits 0 s in
           if ends_number rest then Some (n, rest) else None
      else None
  | EmptyString => None
  end.

(** The double quote. *)
Definition dquote : ascii := ascii_of_nat 34.

Definition unescape (e : ascii) : option ascii :=
  if Ascii.eqb e dquote then Some dquote
  else match e with
       | "\"%char => Some "\"%char
       | "/"%char => Some "/"%char
       | "b"%char => Some (ascii_of_nat 8)
       | "f"%char => Some (ascii_of_nat 12)
       | "n"%char => Some (ascii_of_nat 10)
       | "r"%char => Some (ascii_of_nat 13)
       | "t"%char => Some (ascii_of_nat 9)
       | _ => None
       end.

(** The characters of a string literal after its opening quote. *)
Fixpoint chars (s : string) : option (string * string) :=
  match s with
  | EmptyString => None
  | String c rest =>
      if Ascii.eqb c dquote then Some (EmptyString, rest)
      else if Ascii.eqb c "\" then
        match rest with
        | String e rest' =>
            match unescape e, chars rest' with
            | Some c', Some (body, rest'') => Some (String c' body, rest'')
            | _, _ => None
            end
        | EmptyString => None
        end
      else if (nat_of_ascii c <? 32)%nat then None
      else match chars rest with
           | Some (body, rest') => Some (String c body, rest')
           | None => None
           end
  end.

Fixpoint value (fuel : nat) (s : string) : option (json * string) :=
  match fuel with
  | O => None
  | S fuel' =>
      match skip_ws s with
      | String "n" (String "u" (String "l" (String "l" rest))) => Some (JNull, rest)
      | String "t" (String "r" (String "u" (String "e" rest))) => Some (JBool true, rest)
      | String "f" (String "a" (String "l" (String "s" (String "e" rest)))) =>
          Some (JBool false, rest)
      | String "-" rest =>
          match natural rest with
          | Some (n, rest') => Some (JNum (- n), rest')
          | None => None
          end
      | String "[" rest =>
          match skip_ws rest with
          | String "]" rest' => Some (JArr [], rest')
          | _ =>
              match elements fuel' rest with
              | Some (items, rest') => Some (JArr items, rest')
              | None => None
              end
          end
      | String "{" rest =>
          match skip_ws rest with
          | String "}" rest' => Some (JObj [], rest')
          | _ =>
              match members fuel' rest with
              | Some (ms, rest') => Some (JObj ms, rest')
              | None => None
              end
          end
      | String c rest as s' =>
          if Ascii.eqb c dquote
          then match chars rest with
               | Some (body, rest') => Some (JStr body, rest')
               | None => None
               end
          else match natural s' with
               | Some (n, rest') => Some (JNum n, rest')
               | None => None
               end
      | EmptyString => None
      end
  end

(** One or more values separated by commas, up to the closing bracket. *)
with elements (fuel : nat) (s : string) : option (list json * string) :=
  match fuel with
  | O => None
  | S fuel' =>
      match value fuel' s with
      | Some (v, rest) =>
          match skip_ws rest with
          | String "]" rest' => Some ([v], rest')
          | String "," rest' =>
              match elements fuel' rest' with
              | Some (vs, rest'') => Some (v :: vs, rest'')
              | None => None
              end
          | _ => None
          end
      | None => None
      end
  end

(** One or more [key : value] members, up to the closing brace. *)
with members (fuel : nat) (s : string) : option (list (string * json) * string) :=
  match fuel with
  | O => None
  | S fuel' =>
      match skip_ws s with
      | String c rest =>
          if negb (Ascii.eqb c dquote) then None else
          match chars rest with
          | Some (key, rest1) =>
              match skip_ws rest1 with
              | String ":" rest2 =>
                  match value fuel' rest2 with
                  | Some (v, rest3) =>
                      match skip_ws rest3 with
                      | String "}" rest' => Some ([(key, v)], rest')
                      | String "," rest' =>
                          match members fuel' rest' with
                          | Some (ms, rest'') => Some ((key, v) :: ms, rest'')
                          | None => None
                          end
                      | _ => None
                      end
                  | None => None
                  end
              | _ => None
              end
          | None => None
          end
      | EmptyString => None
      end
  end.

(** [s] between double quotes. *)
Definition quoted (s : string) : string :=
  String dquote (s ++ String dquote EmptyString).

Definition parse (text : string) : option json :=
  match value (2 * String.length text + 2) text with
  | Some (v, rest) =>
      match skip_ws rest with
      | EmptyString => Some v
      | _ => None
      end
  | None => None
  end.

End Json.

(** ** Lint issues, as the linter documents them

    The fields of one entry of the linter's output that the program
    reads; [rule], [line] and [column] may be missing. *)

Module Issue.

Record LintIssue : Type := mkIssue {
  rule : option string;
  message : string;
  severity : Z;
  line : option Z;       (* 1-based *)
  column : option Z      (* 0-based *)
}.

(** The JSON object [o] carries the issue [i]; further members
    ([moduleId], [source], [fatal], ...) and the order are free. *)
Definition encodes (o : json) (i : LintIssue) : Prop :=
  (exists members, o = JObj members) /\
  Js.get o "rule" = JStr <$> rule i /\
  Js.get o "message" = Some (JStr (message i)) /\
  Js.get o "severity" = Some (JNum (severity i)) /\
  Js.get o "line" = JNum <$> line i /\
  Js.get o "column" = JNum <$> column i.

Definition optional (key : string) (v : jsval) : list (string * json) :=
  match v with
  | Some v => [(key, v)]
  | None => []
  end.

(** The object the linter writes for [i]. *)
Definition toJson (i : LintIssue) : json :=
  JObj (optional "rule" (JStr <$> rule i) ++
        [("message", JStr (message i)); ("severity", JNum (severity i))] ++
        optional "line" (JNum <$> line i) ++
        optional "column" (JNum <$> column i))%list.

End Issue.

(** ** Concrete worlds for the runs below *)

Module Sample.

(** A project at [/proj] with a configuration file, and documents. *)
Definition configFile : Path := ["proj"; ".template-lintrc.js"].

Definition files (p : Path) : bool := bool_decide (p = configFile).

Definition bad : TextDocument :=
  mkDocument ["proj"; "foo"; "bad.hbs"] "<div>".

Definition good : TextDocument :=
  mkDocument ["proj"; "foo"; "good.hbs"] "<div></div>".

Definition readme : TextDocument :=
  mkDocument ["proj"; "README.md"] "# readme".

(** A template outside any configured project. *)
Definition stray : TextDocument :=
  mkDocument ["tmp"; "stray.hbs"] "<p>".

(** The child ran and exited with [code], having written [out]. *)
Definition exited (code : Z) (out : string) : SpawnResult :=
  mkResult None (Some code) out EmptyString None.

(** The child could not be started, or was killed on the timeout. *)
Definition failed (e : SpawnError) : SpawnResult :=
  mkResult None None EmptyString EmptyString (Some e).

Definition world (result : SpawnResult) (ci : option string) : World :=
  mkWorld files (fun _ => result) ci Json.parse.

Definition always (w : World) : Z -> World := fun _ => w.

(** A diagnostic left by an earlier cycle. *)
Definition earlier : Diagnostic :=
  mkDiagnostic (Some (JStr "Non-translated string used")) Error
               "ember-template-linter" (Some (JStr "no-bare-strings"))
               (Some (mkRange (CNum 2) (CNum 5) (CNum 2) (CNum 6))).

Definition showing (u : Path) (ds : list Diagnostic) : State :=
  mkState None [] 0%nat 0 {[ u := ds ]} [] [] [].

(** The linter's output for one fatal parse error in [foo/bad.hbs]. *)
Definition fatal_output : string :=
  "{" ++ Json.quoted "foo/bad.hbs" ++ ":[{" ++
  Json.quoted "fatal" ++ ":true," ++
  Json.quoted "severity" ++ ":2," ++
  Json.quoted "message" ++ ":" ++ Json.quoted "Parse error on line 1" ++
  "}]}".

End Sample.

(** ** Names for the parts of a cycle *)

(** The child process of lines 141-153, for [document] under [configFile]. *)
Definition lintRequest (document : TextDocument) (configFile : Path) : SpawnRequest :=
  {| command := "./node_modules/.bin/ember-template-lint";
     args := ["--json"; "--filename";
              Path.relative (Path.dirname configFile) (uri document)];
     cwd := Path.dirname configFile;
     timeout := LINT_TIMEOUT_MS;
     input := getText document |}.

(** The configuration that a cycle for [document] resolves (lines 104-111). *)
Definition configFor (w : World) (document : TextDocument) : option Path :=
  findUp_sync w ".template-lintrc.js" (Path.dirname (uri document)).

(** [output] up to the first [##[error]], or all of it when there is none. *)
Definition beforeMarker (output : string) : string :=
  let idx := Str.indexOf "##[error]" output in
  if Z.eqb idx (-1) then output else Str.substring0 idx output.

(** The text that reaches [JSON.parse] (lines 177-189). *)
Definition parsedText (w : World) (output : string) : string :=
  if bool_decide (env_CI w = Some "true") then beforeMarker output else output.

(** A cycle for [document] that ends in a failure of the child process:
    it could not be started, it was killed on the timeout, or what it
    wrote is not JSON. *)
Inductive failure (w : World) (document : TextDocument) : Prop :=
| unavailable configFile e :
    configFor w document = Some configFile ->
    error (spawnSync w (lintRequest document configFile)) = Some e ->
    e <> ETIMEDOUT ->
    failure w document
| timed_out configFile :
    configFor w document = Some configFile ->
    error (spawnSync w (lintRequest document configFile)) = Some ETIMEDOUT ->
    failure w document
| malformed configFile :
    configFor w document = Some configFile ->
    let result := spawnSync w (lintRequest document configFile) in
    error result = None ->
    status result <> Some 0 ->
    stdout result <> EmptyString ->
    JSON_parse w (parsedText w (stdout result)) = None ->
    failure w document.

(** The same world with another [process.env.CI]. *)
Definition with_CI (ci : option string) (w : World) : World :=
  mkWorld (fileExists w) (spawnSync w) ci (JSON_parse w).

(** The same world, not in CI, whose [JSON.parse] first cuts its argument
    at the marker. *)
Definition cutting (w : World) : World :=
  mkWorld (fileExists w) (spawnSync w) None
          (fun text => JSON_parse w (beforeMarker text)).

(** The fields of the state that a cycle never writes. *)
Definition same_host (st st' : State) : Prop :=
  lintTimeoutId st' = lintTimeoutId st /\
  timers st' = timers st /\
  nextTimerId st' = nextTimerId st /\
  now st' = now st /\
  uncaught st' = uncaught st.

(** The state once the clock has been moved to [until]. *)
Definition at_time (until : Z) (st : State) : State :=
  mkState (lintTimeoutId st) (timers st) (nextTimerId st) (Z.max (now st) until)
          (collection st) (spawned st) (console st) (uncaught st).

(** After a request for a template: its timer is the only one pending,
    and nothing has been started yet. *)
Definition armed (spawned0 : list SpawnRequest) (document : TextDocument) (st : State)
  : Prop :=
  exists id,
    lintTimeoutId st = Some id /\
    timers st = [mkTimer id (now st + DELAY_BEFORE_LINT_MS) document] /\
    spawned st = spawned0.

(** ** Names for what a cycle and a session leave behind *)

(** What a cycle for [document] publishes in [w]: the list it sets, or
    nothing when it ends in an exception. *)
Definition published (w : World) (document : TextDocument) : option (list Diagnostic) :=
  match lintTemplate w document initial with
  | (Ok _, st) => Some (diagnosticsOf st (uri document))
  | (Throw _, _) => None
  end.

(** The marks of a diagnostic made by line 72-81: the fixed source, one
    of the two tiers, and a code only from a truthy rule. *)
Definition linter_made (d : Diagnostic) : Prop :=
  source d = "ember-template-linter" /\
  (severity d = Error \/ severity d = Information) /\
  (code d = None \/ Js.truthy (code d) = true).

(** A run of document events: each arrives [gap] ms after the one before
    and is handled by [updateDiagnostics]. *)
Definition session (world : Z -> World) (requests : list (Z * TextDocument))
    (st : State) : State :=
  fold_left (fun st gd => request world (fst gd) (snd gd) st) requests st.

(** The requests of a session that are for templates. *)
Definition template_requests (requests : list (Z * TextDocument))
  : list (Z * TextDocument) :=
  filter (fun gd => Str.endsWith ".hbs" (fsPath (snd gd)) = true) requests.

(** The states a running extension can be in: requests and the passing
    of time, from the initial state. *)
Inductive reachable (world : Z -> World) : State -> Prop :=
| reach_initial : reachable world initial
| reach_request gap document st :
    reachable world st -> reachable world (request world gap document st)
| reach_advance until st :
    reachable world st -> reachable world (advance world until st).

(** What every reachable state keeps: one timer at most, owned by the
    slot and set for a template; children started for templates only;
    diagnostics shown for templates only, all made by the mapping; and
    no error out of a callback but a TypeError. *)
Definition well_kept (st : State) : Prop :=
  slot_owns_queue st /\
  (forall t, In t (timers st) -> Str.endsWith ".hbs" (fsPath (target t)) = true) /\
  (forall r, In r (spawned st) ->
     exists document,
       Str.endsWith ".hbs" (fsPath document) = true /\ targets r document) /\
  (forall u diagnostics, collection st !! u = Some diagnostics ->
     Str.endsWith ".hbs" (Path.text u) = true /\ Forall linter_made diagnostics) /\
  (forall e, In e (uncaught st) -> e = TypeError).

(** ** The extension's entry points (extension.ts) *)

Module Extension.

(** The three fields that line 11 reads from [package.json]; the file is
    not among the sources, so they are taken as they come. *)
Record Package : Type := mkPackage {
  publisher : string;
  name : string;
  version : string
}.

(** What [activate] pushes on [context.subscriptions]. *)
Inductive Disposable : Type :=
| TheOutputChannel                (* line 21 *)
| OnDidSaveTextDocument           (* line 32 *)
| OnDidChangeActiveTextEditor     (* line 40 *)
| OnDidChangeTextDocument.        (* line 45 *)

Definition same_disposable (a b : Disposable) : bool :=
  match a, b with
  | TheOutputChannel, TheOutputChannel
  | OnDidSaveTextDocument, OnDidSaveTextDocument
  | OnDidChangeActiveTextEditor, OnDidChangeActiveTextEditor
  | OnDidChangeTextDocument, OnDidChangeTextDocument => true
  | _, _ => false
  end.

Record Host : Type := mkHost {
  linter : State;                   (* linter.ts and the one collection *)
  outputChannel : option string;    (* line 13: undefined, or the text appended *)
  subscriptions : list Disposable
}.

(** The module as loaded, before [activate]. *)
Definition loaded : Host := mkHost initial None [].

(** [log] (lines 15-17): [outputChannel?.append(s)]. *)
Definition log (s : string) (h : Host) : Host :=
  match outputChannel h with
  | Some text => mkHost (linter h) (Some (text ++ s)) (subscriptions h)
  | None => h
  end.

(** [`${verb} ${publisher}.${name}@${version}`] *)
Definition banner (verb : string) (p : Package) : string :=
  verb ++ " " ++ publisher p ++ "." ++ name p ++ "@" ++ version p.

Definition lint (document : TextDocument) (h : Host) : Host :=
  mkHost (snd (updateDiagnostics document (linter h))) (outputChannel h) (subscriptions h).

(** [activate] (lines 19-48), run once on the loaded module, with
    [window.activeTextEditor] holding [activeTextEditor]'s document or
    nothing.  The collection it creates is the empty one of [initial]. *)
Definition activate (p : Package) (activeTextEditor : option TextDocument) : Host :=
  let h := mkHost (linter loaded) (Some EmptyString) [TheOutputChannel] in
  let h := log (banner "Activating" p) h in
  let h := match activeTextEditor with
           | Some document => lint document h
           | None => h
           end in
  mkHost (linter h) (outputChannel h)
         (subscriptions h ++ [OnDidSaveTextDocument; OnDidChangeActiveTextEditor;
                              OnDidChangeTextDocument])%list.

(** [deactivate] (lines 50-52) *)
Definition deactivate (p : Package) (h : Host) : Host :=
  log (banner "Deactivated" p) h.

(** The events the listeners are registered for. *)
Inductive EditorEvent : Type :=
| DidSaveTextDocument (textDocument : TextDocument)
| DidChangeActiveTextEditor (editor : option TextDocument)
| DidChangeTextDocument (document : TextDocument).

Definition listening (d : Disposable) (h : Host) : bool :=
  existsb (same_disposable d) (subscriptions h).

(** The listener of lines 32-34, 40-44 or 45-47, if registered. *)
Definition on_event (ev : EditorEvent) (h : Host) : Host :=
  match ev with
  | DidSaveTextDocument textDocument =>
      if listening OnDidSaveTextDocument h then lint textDocument h else h
  | DidChangeActiveTextEditor editor =>
      if listening OnDidChangeActiveTextEditor h
      then match editor with
           | Some document => lint document h
           | None => h
           end
      else h
  | DidChangeTextDocument document =>
      if listening OnDidChangeTextDocument h then lint document h else h
  end.

(** The clock reaches [until]. *)
Definition elapse (world : Z -> World) (until : Z) (h : Host) : Host :=
  mkHost (advance world until (linter h)) (outputChannel h) (subscriptions h).

(** An event [gap] ms after the present moment. *)
Definition step (world : Z -> World) (h : Host) (timed : Z * EditorEvent) : Host :=
  on_event (snd timed) (elapse world (now (linter h) + fst timed) h).

Definition run (world : Z -> World) (events : list (Z * EditorEvent)) (h : Host) : Host :=
  fold_left (step world) events h.

End Extension.

(** ** An earlier revision of the mapping (unnamed/part_001, lines 70-85)

    It sets [code] to the rule whether or not there is one. *)

Module Earlier.

Definition getDiagnosticForLintResult (lintResult : json) : Result Diagnostic :=
  match lintResult with
  | JNull => Throw TypeError   (* destructuring [null], line 71 *)
  | _ =>
      let rule := Js.get lintResult "rule" in
      let message := Js.get lintResult "message" in
      let severity := Js.get lintResult "severity" in
      let line := Js.get lintResult "line" in
      let column := Js.get lintResult "column" in
      Ok {| code := rule;
            message := message;
            severity := match severity with
                        | Some (JNum 2) => Error
                        | _ => Information
                        end;
            source := "ember-template-linter";
            range := match line, column with
                     | Some l, Some c =>
                         Some (mkRange (minus1 l) (asis c) (minus1 l) (plus1 c))
                     | _, _ => None
                     end |}
  end.

End Earlier.

(** ** The asynchronous revision of the cycle (unnamed/part_000, lines 99-212)

    [lintTemplate] is an async function there: it runs up to
    [await execa(...)], and the rest runs when the child has settled,
    with other events in between.  [updateDiagnostics] and the mapping
    are, word for word, those of linter.ts. *)

Module Async.

(** The call of lines 126-139. *)
Record Call : Type := mkCall {
  command : string;
  args : list string;
  cwd : Path;
  timeout : Z;
  shell : bool;
  input : string
}.

(** What the catch block reads of the error [execa] rejects with. *)
Record ExecaError : Type := mkExecaError {
  timedOut : bool;           (* [execaErr.timedOut], as a condition *)
  stdout : option string     (* [execaErr.stdout]; [None] is [undefined] *)
}.

(** How the promise of [execa] settles: the child exited with 0, or the
    promise is rejected. *)
Inductive Settled : Type :=
| Fulfilled
| Rejected (execaErr : ExecaError).

Inductive LogEntry : Type :=
| log_found (len : jsval)                                   (* line 177 *)
| error_unparsable (execaErr : ExecaError) (e : JsError)    (* lines 179-199 *)
| error_timed_out                                           (* line 202 *)
| error_computed (n : nat) (fsPath : string).               (* line 211 *)

Record State : Type := mkState {
  collection : gmap Path (list Diagnostic);
  started : list Call;
  console : list LogEntry
}.

(** The frame of a cycle suspended at the [await]: the variables that
    the rest of the function reads. *)
Record Suspended : Type := mkSuspended {
  document : TextDocument;
  targetRelativePath : string
}.

Definition write (entry : LogEntry) (st : State) : State :=
  mkState (collection st) (started st) (console st ++ [entry])%list.

(** Lines 209-211.  An exception here rejects the promise of the cycle. *)
Definition publish (document : TextDocument) (lintIssues : jsval) (st : State)
  : Result unit * State :=
  match lintIssues with
  | Some (JArr issues) =>
      match mapResult getDiagnosticForLintResult issues with
      | Ok diagnostics =>
          (Ok tt,
           write (error_computed (length diagnostics) (fsPath document))
                 (mkState (<[uri document := diagnostics]> (collection st))
                          (started st) (console st)))
      | Throw e => (Throw e, st)
      end
  | _ => (Throw TypeError, st)
  end.

(** Lines 104-139: up to the [await].  Without a configuration file
    nothing is awaited and the cycle runs to its end. *)
Definition lintTemplate_begin (w : World) (document : TextDocument) (st : State)
  : (Result unit + Suspended) * State :=
  let targetPath := uri document in
  let targetDir := Path.dirname targetPath in
  match findUp_sync w ".template-lintrc.js" targetDir with
  | None =>
      let '(r, st') := publish document (Some (JArr [])) st in (inl r, st')
  | Some configFile =>
      let configDir := Path.dirname configFile in
      let targetRelativePath := Path.relative configDir targetPath in
      (inr (mkSuspended document targetRelativePath),
       mkState (collection st)
               (started st ++
                [{| command := "./node_modules/.bin/ember-template-lint";
                    args := ["--json"; "--filename"; targetRelativePath];
                    cwd := configDir;
                    timeout := LINT_TIMEOUT_MS;
                    shell := true;
                    input := getText document |}])%list
               (console st))
  end.

(** Lines 141-211: the rest of the cycle, once the child has settled. *)
Definition lintTemplate_resume (w : World) (frame : Suspended) (outcome : Settled)
    (st : State) : Result unit * State :=
  let '(lintIssues, st) :=
    match outcome with
    | Fulfilled => (Some (JArr []), st)
    | Rejected execaErr =>
        if negb (timedOut execaErr)
        then
          if negb (bool_decide (stdout execaErr = Some EmptyString))
          then
            let catch (lintIssues : jsval) (parseErr : JsError) :=
              (lintIssues, write (error_unparsable execaErr parseErr) st) in
            match stdout execaErr with
            | None => catch (Some (JArr [])) SyntaxError   (* JSON.parse(undefined) *)
            | Some text =>
                match JSON_parse w text with
                | None => catch (Some (JArr [])) SyntaxError
                | Some jsonResult =>
                    match Js.prop (Some jsonResult) (targetRelativePath frame) with
                    | Throw e => catch (Some (JArr [])) e
                    | Ok lintIssues =>
                        match Js.prop lintIssues "length" with
                        | Throw e => catch lintIssues e
                        | Ok len => (lintIssues, write (log_found len) st)
                        end
                    end
                end
            end
          else (Some (JArr []), st)
        else (Some (JArr []), write error_timed_out st)
    end in
  publish (document frame) lintIssues st.

Definition diagnosticsOf (st : State) (u : Path) : list Diagnostic :=
  default [] (collection st !! u).

End Async.

(** ** The parser behind a guard *)

(** The same world, with a [JSON.parse] that refuses any text in which
    the marker occurs. *)
Definition guarded (w : World) : World :=
  mkWorld (fileExists w) (spawnSync w) (env_CI w)
          (fun text =>
             if Z.eqb (Str.indexOf "##[error]" text) (-1)
             then JSON_parse w text
             else None).

(** * Properties *)

(** A mapping that returns yields one result for each item. *)
Lemma mapResult_length {A B} (f : A -> Result B) items out :
  mapResult f items = Ok out -> length out = length items.
Proof.
  revert out. induction items as [|x rest IH]; intros out; simpl.
  - intros [= <-]. reflexivity.
  - destruct (f x); [|discriminate].
    destruct (mapResult f rest); [|discriminate].
    intros [= <-]. simpl. f_equal. apply IH. reflexivity.
Qed.

(** ** [getDiagnosticForLintResult] *)

Section Mapping.

Variables (o : json) (i : Issue.LintIssue).
Hypothesis carries : Issue.encodes o i.


End Mapping.

Lemma toJson_encodes (i : Issue.LintIssue) : Issue.encodes (Issue.toJson i) i.
Proof.
  destruct i as [r m s l c]. unfold Issue.encodes, Issue.toJson. simpl.
  split; [eexists; reflexivity|].
  destruct r, l, c; repeat split; reflexivity.
Qed.









(** The round trip of the spec: rule [no-bare-strings], severity 2, line 3,
    column 5 gives one error diagnostic with that code on line 2, columns
    5 to 6. *)
Example round_trip_rule_violation :
  getDiagnosticForLintResult
    (Issue.toJson (Issue.mkIssue (Some "no-bare-strings") "Non-translated string used" 2
                                 (Some 3) (Some 5))) =
  Ok Sample.earlier.
Proof. reflexivity. Qed.

(** ** [lintTemplate] *)

Ltac step_cycle :=
  unfold lintTemplate, configFor, lintRequest, bind, ret, throw, liftResult,
    cp_spawnSync, console_write, collection_set, modify in *;
  simpl in *.

(** Without a configuration a cycle publishes the empty list and does
    nothing else but write its closing line. *)
Lemma lintTemplate_no_config w document st :
  configFor w document = None ->
  lintTemplate w document st =
  (Ok tt,
   mkState (lintTimeoutId st) (timers st) (nextTimerId st) (now st)
           (<[uri document := []]> (collection st)) (spawned st)
           (console st ++ [error_computed 0 (fsPath document)])%list (uncaught st)).
Proof.
  intros H. step_cycle. rewrite H. reflexivity.
Qed.

(** When the child could not be run, the cycle logs the error and
    publishes the empty list. *)
Lemma lintTemplate_spawn_error w document st configFile e :
  configFor w document = Some configFile ->
  error (spawnSync w (lintRequest document configFile)) = Some e ->
  lintTemplate w document st =
  (Ok tt,
   mkState (lintTimeoutId st) (timers st) (nextTimerId st) (now st)
           (<[uri document := []]> (collection st))
           (spawned st ++ [lintRequest document configFile])%list
           (console st ++ [error_spawn e; error_computed 0 (fsPath document)])%list
           (uncaught st)).
Proof.
  intros Hc He. step_cycle. rewrite Hc. simpl. rewrite He. simpl.
  rewrite <- app_assoc. reflexivity.
Qed.

(** Whatever the child does, a cycle starts at most the one child of
    [lintRequest], writes the collection at most at its own document and
    leaves the timers alone. *)
Lemma lintTemplate_frame w document st :
  let st' := snd (lintTemplate w document st) in
  same_host st st' /\
  (forall u, u <> uri document -> collection st' !! u = collection st !! u) /\
  spawned st' =
    (spawned st ++ match configFor w document with
                   | Some configFile => [lintRequest document configFile]
                   | None => []
                   end)%list.
Proof.
  unfold same_host. step_cycle.
  destruct (findUp_sync w ".template-lintrc.js" (Path.dirname (uri document)))
    as [configFile|]; simpl.
  2:{ rewrite app_nil_r. repeat split; try reflexivity.
      intros u Hu. apply lookup_insert_ne. congruence. }
  repeat (case_match; simpl in *; simplify_eq);
    repeat split; try reflexivity;
    intros u Hu; try (rewrite lookup_insert_ne by congruence); reflexivity.
Qed.

(** When what the child wrote is not JSON, the cycle logs that and
    publishes the empty list. *)
Lemma lintTemplate_malformed w document st configFile :
  configFor w document = Some configFile ->
  let result := spawnSync w (lintRequest document configFile) in
  error result = None ->
  status result <> Some 0 ->
  stdout result <> EmptyString ->
  JSON_parse w (parsedText w (stdout result)) = None ->
  fst (lintTemplate w document st) = Ok tt /\
  collection (snd (lintTemplate w document st)) =
    <[uri document := []]> (collection st).
Proof.
  intros Hc result He Hs Ho Hp. subst result. step_cycle.
  rewrite Hc. simpl. rewrite He.
  rewrite (bool_decide_eq_false_2 _ Hs).
  apply String.eqb_neq in Ho. rewrite Ho. simpl.
  unfold parsedText, beforeMarker in Hp.
  destruct (bool_decide (env_CI w = Some "true")); simpl.
  - destruct (Z.eqb (Str.indexOf "##[error]" _) (-1)); simpl;
      rewrite Hp; simpl; split; reflexivity.
  - rewrite Hp. simpl. split; reflexivity.
Qed.

(** C1, as amended.  A cycle that ends in a failure of the child process
    (it could not be started, it timed out, or its output is not JSON)
    returns normally and publishes the empty list for its document, in
    place of whatever was shown for it before; the diagnostics of every
    other document stay as they were. *)
Theorem failed_cycle_publishes_nothing w document st :
  failure w document ->
  let after := lintTemplate w document st in
  fst after = Ok tt /\
  diagnosticsOf (snd after) (uri document) = [] /\
  forall u, u <> uri document -> diagnosticsOf (snd after) u = diagnosticsOf st u.
Proof.
  intros Hf after.
  assert (fst after = Ok tt /\
          collection (snd after) = <[uri document := []]> (collection st)) as [Hok Hcol].
  { subst after. destruct Hf as [cfg e Hc He _ | cfg Hc He | cfg Hc result He Hs Ho Hp].
    - rewrite (lintTemplate_spawn_error _ _ _ _ _ Hc He). split; reflexivity.
    - rewrite (lintTemplate_spawn_error _ _ _ _ _ Hc He). split; reflexivity.
    - apply (lintTemplate_malformed _ _ _ _ Hc He Hs Ho Hp). }
  split; [exact Hok|]. unfold diagnosticsOf. rewrite Hcol. split.
  - rewrite lookup_insert_eq. reflexivity.
  - intros u Hu. rewrite lookup_insert_ne by congruence. reflexivity.
Qed.

Lemma failed_cycle_publishes_nothing_witness :
  let w := Sample.world (Sample.failed ETIMEDOUT) None in
  let st := Sample.showing (uri Sample.bad) [Sample.earlier] in
  failure w Sample.bad /\
  fst (lintTemplate w Sample.bad st) = Ok tt /\
  diagnosticsOf (snd (lintTemplate w Sample.bad st)) (uri Sample.bad) = [] /\
  forall u, u <> uri Sample.bad ->
            diagnosticsOf (snd (lintTemplate w Sample.bad st)) u = diagnosticsOf st u.
Proof.
  intros w st.
  assert (Hf : failure w Sample.bad).
  { apply (timed_out w Sample.bad Sample.configFile); reflexivity. }
  split; [exact Hf|].
  exact (failed_cycle_publishes_nothing w Sample.bad st Hf).
Defined.

(** C1, as stated, fails: a diagnostic shown for the document before a
    cycle is gone after it, whether the child could not be started, timed
    out, or wrote something that is not JSON. *)
Lemma failed_cycle_drops_prior_diagnostics :
  let st := Sample.showing (uri Sample.bad) [Sample.earlier] in
  let before := diagnosticsOf st (uri Sample.bad) in
  let after w := diagnosticsOf (snd (lintTemplate w Sample.bad st)) (uri Sample.bad) in
  let missing := Sample.world (Sample.failed ENOENT) None in
  let slow := Sample.world (Sample.failed ETIMEDOUT) None in
  let garbled := Sample.world (Sample.exited 1 "oops") None in
  before = [Sample.earlier] /\
  (failure missing Sample.bad /\ after missing = [] /\ after missing <> before) /\
  (failure slow Sample.bad /\ after slow = [] /\ after slow <> before) /\
  (failure garbled Sample.bad /\ after garbled = [] /\ after garbled <> before).
Proof.
  intros st before after missing slow garbled.
  split; [reflexivity|].
  repeat split; try discriminate.
  - apply (unavailable missing Sample.bad Sample.configFile ENOENT);
      [reflexivity | reflexivity | discriminate].
  - apply (timed_out slow Sample.bad Sample.configFile); reflexivity.
  - apply (malformed garbled Sample.bad Sample.configFile);
      [reflexivity | reflexivity | discriminate | discriminate | reflexivity].
Qed.

(** ** Configuration lookup *)

Section FindUp.

Variables (exists_ : Path -> bool) (name : string).

(** The walk over the reversed directory, read on its suffixes. *)
Lemma findUp_walk_spec (up : list string) :
  match findUp_walk exists_ name up with
  | Some p =>
      exists s above,
        up = (above ++ s)%list /\ p = (rev s ++ [name])%list /\
        exists_ p = true /\
        forall s' above', up = (above' ++ s')%list ->
          (length s < length s')%nat -> exists_ (rev s' ++ [name])%list = false
  | None =>
      forall s above, up = (above ++ s)%list -> exists_ (rev s ++ [name])%list = false
  end.
Proof.
  induction up as [|x parent IH]; simpl.
  - destruct (exists_ [name]) eqn:E.
    + exists [], []. repeat split; try assumption.
      intros s' above' Hs' Hlt. symmetry in Hs'.
      apply app_eq_nil in Hs' as [_ ->]. simpl in Hlt. lia.
    + intros s above Hs. symmetry in Hs. apply app_eq_nil in Hs as [_ ->]. exact E.
  - destruct (exists_ ((rev parent ++ [x]) ++ [name])%list) eqn:E.
    + exists (x :: parent), []. repeat split; try assumption.
      intros s' above' Hs' Hlt.
      apply (f_equal (@length string)) in Hs'.
      rewrite length_app in Hs'. simpl in *. lia.
    + destruct (findUp_walk exists_ name parent) as [p|].
      * destruct IH as (s & above & Hup & Hp & He & Hfar).
        exists s, (x :: above). repeat split; try assumption.
        { rewrite Hup. reflexivity. }
        intros s' above' Hs' Hlt.
        destruct above' as [|y above'']; simpl in Hs'.
        { subst s'. exact E. }
        injection Hs' as _ Hs'. apply (Hfar s' above''); assumption.
      * intros s above Hs.
        destruct above as [|y above']; simpl in Hs.
        { subst s. exact E. }
        injection Hs as _ Hs. apply (IH s above'). exact Hs.
Qed.

End FindUp.

(** The lookup, read on the directories from [startDir] up to the root:
    these are the prefixes of [startDir]. *)
Lemma findUp_sync_spec w name (startDir : Path) :
  match findUp_sync w name startDir with
  | Some p =>
      exists d, d `prefix_of` startDir /\ p = (d ++ [name])%list /\
        fileExists w p = true /\
        forall d', d' `prefix_of` startDir -> (length d < length d')%nat ->
                   fileExists w (d' ++ [name])%list = false
  | None =>
      forall d, d `prefix_of` startDir -> fileExists w (d ++ [name])%list = false
  end.
Proof.
  unfold findUp_sync.
  pose proof (findUp_walk_spec (fileExists w) name (rev startDir)) as H.
  destruct (findUp_walk (fileExists w) name (rev startDir)) as [p|].
  - destruct H as (s & above & Hup & Hp & He & Hfar).
    exists (rev s). repeat split.
    + exists (rev above). rewrite <- rev_app_distr, <- Hup. symmetry. apply rev_involutive.
    + exact Hp.
    + exact He.
    + intros d' [below' Hd'] Hlt.
      rewrite <- (rev_involutive d').
      apply (Hfar (rev d') (rev below')).
      * rewrite Hd'. apply rev_app_distr.
      * rewrite length_rev in Hlt. rewrite length_rev. exact Hlt.
  - intros d [below Hd]. rewrite <- (rev_involutive d).
    apply (H (rev d) (rev below)). rewrite Hd. apply rev_app_distr.
Qed.

Lemma findUp_sync_None w name (startDir : Path) :
  (forall d, d `prefix_of` startDir -> fileExists w (d ++ [name])%list = false) ->
  findUp_sync w name startDir = None.
Proof.
  intros Hnone. pose proof (findUp_sync_spec w name startDir) as H.
  destruct (findUp_sync w name startDir) as [p|]; [|reflexivity].
  destruct H as (d & Hd & -> & He & _). rewrite (Hnone d Hd) in He. discriminate.
Qed.

(** C9.  From any starting directory the lookup returns the configuration
    file of the nearest directory, among the starting directory and its
    ancestors, that has one, and returns nothing exactly when none of them
    has one.  Every cycle, whatever state earlier cycles left, runs its
    child in the directory resolved against the file system of that
    moment. *)
Theorem config_resolution_nearest (w : World) :
  (forall startDir : Path,
     match findUp_sync w ".template-lintrc.js" startDir with
     | Some p =>
         exists d, d `prefix_of` startDir /\
           p = (d ++ [".template-lintrc.js"])%list /\
           fileExists w p = true /\
           forall d', d' `prefix_of` startDir -> (length d < length d')%nat ->
                      fileExists w (d' ++ [".template-lintrc.js"])%list = false
     | None =>
         forall d, d `prefix_of` startDir ->
                   fileExists w (d ++ [".template-lintrc.js"])%list = false
     end) /\
  (forall startDir : Path,
     findUp_sync w ".template-lintrc.js" startDir = None <->
     forall d, d `prefix_of` startDir ->
               fileExists w (d ++ [".template-lintrc.js"])%list = false) /\
  (forall document st,
     spawned (snd (lintTemplate w document st)) =
     (spawned st ++
      match findUp_sync w ".template-lintrc.js" (Path.dirname (uri document)) with
      | Some configFile => [lintRequest document configFile]
      | None => []
      end)%list).
Proof.
  split; [|split].
  - intros startDir. apply findUp_sync_spec.
  - intros startDir. split.
    + intros H. pose proof (findUp_sync_spec w ".template-lintrc.js" startDir) as Hs.
      rewrite H in Hs. exact Hs.
    + apply findUp_sync_None.
  - intros document st. apply lintTemplate_frame.
Qed.

(** C5.  For a template with no configuration file in its directory or
    above it, a cycle returns normally, publishes the empty list for the
    document and starts no child; the console gets the closing line of
    every cycle and nothing else. *)
Theorem no_config_publishes_empty w document st :
  (forall d, d `prefix_of` Path.dirname (uri document) ->
             fileExists w (d ++ [".template-lintrc.js"])%list = false) ->
  lintTemplate w document st =
  (Ok tt,
   mkState (lintTimeoutId st) (timers st) (nextTimerId st) (now st)
           (<[uri document := []]> (collection st)) (spawned st)
           (console st ++ [error_computed 0 (fsPath document)])%list (uncaught st)).
Proof.
  intros Hnone. apply lintTemplate_no_config. apply findUp_sync_None. exact Hnone.
Qed.

Lemma no_config_publishes_empty_witness :
  let w := Sample.world (Sample.exited 0 EmptyString) None in
  let st := Sample.showing (uri Sample.stray) [Sample.earlier] in
  lintTemplate w Sample.stray st =
  (Ok tt,
   mkState None [] 0%nat 0 (<[uri Sample.stray := []]> (collection st)) []
           [error_computed 0 "/tmp/stray.hbs"] []).
Proof.
  intros w st.
  apply (no_config_publishes_empty w Sample.stray st).
  intros d [below Hd]. simpl in Hd.
  destruct d as [|x d]; [reflexivity|].
  injection Hd as <- Hd.
  destruct d; [reflexivity | discriminate].
Defined.

(** A child that exits non-zero without output leaves nothing to parse:
    the cycle publishes the empty list. *)
Lemma lintTemplate_empty_output w document st configFile :
  configFor w document = Some configFile ->
  let result := spawnSync w (lintRequest document configFile) in
  error result = None ->
  stdout result = EmptyString ->
  lintTemplate w document st =
  (Ok tt,
   mkState (lintTimeoutId st) (timers st) (nextTimerId st) (now st)
           (<[uri document := []]> (collection st))
           (spawned st ++ [lintRequest document configFile])%list
           (console st ++ [error_computed 0 (fsPath document)])%list
           (uncaught st)).
Proof.
  intros Hc result He Ho. subst result. step_cycle.
  rewrite Hc. simpl. rewrite He, Ho. simpl.
  rewrite andb_false_r. reflexivity.
Qed.

(** C2 fails on the code for output that lacks the key.  The child exits
    with status 1 and writes an empty object; [jsonResult[targetRelativePath]]
    is undefined, reading its [length] throws inside the try block, and the
    variable keeps the undefined value, so [lintIssues.map] at line 207
    throws a TypeError out of the cycle: nothing is published and the
    host sees the error leave the timer callback. *)
Theorem missing_key_throws :
  let w := Sample.world (Sample.exited 1 "{}") None in
  let st := Sample.showing (uri Sample.bad) [Sample.earlier] in
  let after := lintTemplate w Sample.bad st in
  JSON_parse w "{}" = Some (JObj []) /\
  Js.prop (Some (JObj [])) "foo/bad.hbs" = Ok None /\
  fst after = Throw TypeError /\
  collection (snd after) = collection st /\
  console (snd after) = [error_unparsable "{}" TypeError] /\
  uncaught (fire (Sample.always w) (mkTimer 0 500 Sample.bad) st) = [TypeError].
Proof.
  repeat split.
Qed.

(** Under [CI=true] a cycle behaves, in what it returns, publishes and
    spawns, as a cycle outside CI whose parser cuts its input at the
    marker. *)
Lemma lintTemplate_in_CI w document st :
  env_CI w = Some "true" ->
  let a := lintTemplate w document st in
  let b := lintTemplate (cutting w) document st in
  fst a = fst b /\
  collection (snd a) = collection (snd b) /\
  spawned (snd a) = spawned (snd b).
Proof.
  intros Hci. step_cycle. unfold findUp_sync. simpl.
  destruct (findUp_walk (fileExists w) ".template-lintrc.js" _) as [configFile|];
    simpl; [|repeat split].
  destruct (error (spawnSync w _)); simpl; [repeat split|].
  destruct (negb (bool_decide (status _ = Some 0)) && negb (String.eqb _ EmptyString));
    simpl; [|repeat split].
  rewrite Hci. simpl. unfold beforeMarker.
  destruct (Z.eqb (Str.indexOf "##[error]" _) (-1)); simpl;
    repeat (case_match; simpl in *; simplify_eq); repeat split.
Qed.

(** C10.  What a cycle makes of the child's output depends on the
    environment: under [CI=true] the text is cut at the first [##[error]]
    before it is parsed, so a cycle there behaves as one outside CI whose
    parser cuts its input; and one and the same output (a fatal parse
    error followed by the marker) yields one diagnostic under [CI=true]
    and none otherwise. *)
Theorem ci_changes_interpretation :
  (forall w document st,
     env_CI w = Some "true" ->
     let a := lintTemplate w document st in
     let b := lintTemplate (cutting w) document st in
     fst a = fst b /\
     collection (snd a) = collection (snd b) /\
     spawned (snd a) = spawned (snd b)) /\
  (let out := Sample.fatal_output ++ "##[error]Process completed with exit code 1." in
   let in_ci := Sample.world (Sample.exited 1 out) (Some "true") in
   let local := with_CI None in_ci in
   let published w := diagnosticsOf (snd (lintTemplate w Sample.bad initial)) (uri Sample.bad) in
   spawnSync in_ci = spawnSync local /\
   published in_ci =
     [mkDiagnostic (Some (JStr "Parse error on line 1")) Error
                   "ember-template-linter" None None] /\
   published local = [] /\
   published in_ci <> published local).
Proof.
  split.
  - apply lintTemplate_in_CI.
  - repeat split. discriminate.
Qed.

Lemma ci_changes_interpretation_witness :
  let out := Sample.fatal_output ++ "##[error]" in
  let w := Sample.world (Sample.exited 1 out) (Some "true") in
  env_CI w = Some "true" /\
  fst (lintTemplate w Sample.bad initial) = fst (lintTemplate (cutting w) Sample.bad initial) /\
  collection (snd (lintTemplate w Sample.bad initial)) =
    collection (snd (lintTemplate (cutting w) Sample.bad initial)) /\
  spawned (snd (lintTemplate w Sample.bad initial)) =
    spawned (snd (lintTemplate (cutting w) Sample.bad initial)).
Proof.
  intros out w.
  split; [reflexivity|].
  apply (proj1 ci_changes_interpretation w Sample.bad initial).
  reflexivity.
Defined.

(** ** [updateDiagnostics] *)

Lemma updateDiagnostics_not_template document st :
  Str.endsWith ".hbs" (fsPath document) = false ->
  updateDiagnostics document st =
  (Ok tt,
   mkState (lintTimeoutId st) (timers st) (nextTimerId st) (now st)
           ∅ (spawned st) (console st) (uncaught st)).
Proof.
  intros H. unfold updateDiagnostics. rewrite H. reflexivity.
Qed.

(** C3, as amended.  For a document whose path does not end in [.hbs],
    [updateDiagnostics] returns at once having emptied the whole
    collection, the diagnostics of every document with it; it sets and
    cancels no timer and starts no child. *)
Theorem non_template_clears_collection document st :
  Str.endsWith ".hbs" (fsPath document) = false ->
  updateDiagnostics document st =
  (Ok tt,
   mkState (lintTimeoutId st) (timers st) (nextTimerId st) (now st)
           ∅ (spawned st) (console st) (uncaught st)).
Proof.
  apply updateDiagnostics_not_template.
Qed.

Lemma non_template_clears_collection_witness :
  let st := Sample.showing (uri Sample.good) [Sample.earlier] in
  Str.endsWith ".hbs" (fsPath Sample.readme) = false /\
  updateDiagnostics Sample.readme st =
  (Ok tt, mkState None [] 0%nat 0 ∅ [] [] []).
Proof.
  intros st. split; [reflexivity|].
  apply (non_template_clears_collection Sample.readme st). reflexivity.
Defined.

(** C3, as stated, fails: a request for a document that is not a
    template wipes the diagnostics of another document. *)
Lemma non_template_clears_other_documents :
  let st := Sample.showing (uri Sample.good) [Sample.earlier] in
  let after := snd (updateDiagnostics Sample.readme st) in
  Str.endsWith ".hbs" (fsPath Sample.readme) = false /\
  uri Sample.good <> uri Sample.readme /\
  diagnosticsOf st (uri Sample.good) = [Sample.earlier] /\
  diagnosticsOf after (uri Sample.good) = [] /\
  diagnosticsOf after (uri Sample.good) <> diagnosticsOf st (uri Sample.good).
Proof.
  repeat split; discriminate.
Qed.

(** A request for a template cancels the pending timer, whatever document
    it was for, and leaves exactly one: its own. *)
Lemma updateDiagnostics_template document st :
  Str.endsWith ".hbs" (fsPath document) = true ->
  slot_owns_queue st ->
  updateDiagnostics document st =
  (Ok tt,
   mkState (Some (nextTimerId st))
           [mkTimer (nextTimerId st) (now st + DELAY_BEFORE_LINT_MS) document]
           (S (nextTimerId st)) (now st)
           (collection st) (spawned st) (console st) (uncaught st)).
Proof.
  intros Hhbs Hslot. unfold updateDiagnostics, slot_owns_queue in *.
  rewrite Hhbs. simpl.
  unfold bind, gets, clearTimeout, set_lintTimeoutId, setTimeout, modify, ret. simpl.
  destruct (lintTimeoutId st) as [id|]; simpl.
  - destruct Hslot as (t & Ht & Hid). rewrite Ht.
    rewrite filter_cons, filter_nil. rewrite decide_False by (intros Hne; apply Hne, Hid).
    reflexivity.
  - rewrite Hslot. reflexivity.
Qed.

(** ** The event loop fires every timer that is due *)

Lemma next_timer_None ts : next_timer ts = None -> ts = [].
Proof.
  destruct ts as [|x rest]; [reflexivity|]. simpl.
  destruct (next_timer rest); [destruct (due _ <? due _)|]; discriminate.
Qed.

Lemma next_timer_In ts t : next_timer ts = Some t -> In t ts.
Proof.
  revert t. induction ts as [|x rest IH]; intros t; simpl; [discriminate|].
  destruct (next_timer rest) as [u|].
  - destruct (due u <? due x); intros [= <-]; [right; apply IH; reflexivity | left; reflexivity].
  - intros [= <-]. left. reflexivity.
Qed.

Lemma next_timer_earliest ts t :
  next_timer ts = Some t -> forall u, In u ts -> due t <= due u.
Proof.
  revert t. induction ts as [|x rest IH]; intros t; simpl; [discriminate|].
  destruct (next_timer rest) as [v|] eqn:E.
  - destruct (Z.ltb_spec (due v) (due x)); intros [= <-] u [<-|Hu].
    + lia.
    + apply IH; [reflexivity | exact Hu].
    + lia.
    + pose proof (IH v eq_refl u Hu). lia.
  - intros [= <-] u [<-|Hu]; [lia|].
    apply next_timer_None in E. subst rest. contradiction.
Qed.

Lemma fire_timers world t st :
  timers (fire world t st) = filter (fun u => timerId u ≠ timerId t) (timers st).
Proof.
  unfold fire, lintCallback, bind, set_lintTimeoutId, modify. simpl.
  match goal with
  | |- context [lintTemplate ?w ?d ?s] =>
      pose proof (lintTemplate_frame w d s) as ((_ & Htm & _) & _);
      destruct (lintTemplate w d s) as [[[]|e] st2]
  end; simpl in *; exact Htm.
Qed.

Lemma run_timers_complete world until fuel :
  forall st, (length (timers st) <= fuel)%nat ->
  forall u, In u (timers (run_timers world until fuel st)) -> until < due u.
Proof.
  induction fuel as [|fuel IH]; intros st Hlen u Hu; simpl in Hu.
  - destruct (timers st); [contradiction | simpl in Hlen; lia].
  - destruct (next_timer (timers st)) as [t|] eqn:E.
    + destruct (Z.leb_spec (due t) until) as [Hdue|Hdue].
      * apply (IH (fire world t st)); [|exact Hu].
        rewrite fire_timers.
        assert (length (filter (fun v => timerId v ≠ timerId t) (timers st))
                < length (timers st))%nat; [|lia].
        apply (length_filter_lt _ _ t).
        -- apply list_elem_of_In, next_timer_In, E.
        -- intros Hne. apply Hne. reflexivity.
      * pose proof (next_timer_earliest _ _ E u Hu). lia.
    + apply next_timer_None in E. rewrite E in Hu. contradiction.
Qed.

(** Once the clock has reached [until], no pending timer is overdue. *)
Lemma advance_complete world until st :
  forall u, In u (timers (advance world until st)) -> until < due u.
Proof.
  intros u Hu. unfold advance in Hu. simpl in Hu.
  apply (run_timers_complete world until (length (timers st)) st); [lia | exact Hu].
Qed.

(** ** Timers *)

Lemma advance_idle world until st :
  timers st = [] -> advance world until st = at_time until st.
Proof.
  intros H. unfold advance. rewrite H. reflexivity.
Qed.

Lemma advance_not_due world until st t :
  timers st = [t] -> until < due t -> advance world until st = at_time until st.
Proof.
  intros H Hlt. unfold advance. rewrite H. simpl. rewrite H. simpl.
  destruct (Z.leb_spec (due t) until); [lia|]. reflexivity.
Qed.

Lemma advance_due world until st t :
  timers st = [t] -> due t <= until ->
  advance world until st = at_time until (fire world t st).
Proof.
  intros H Hle. unfold advance. rewrite H. simpl. rewrite H. simpl.
  destruct (Z.leb_spec (due t) until); [|lia]. reflexivity.
Qed.

(** Firing the one pending timer runs one cycle for its document and
    leaves no timer behind. *)
Lemma fire_single world st t :
  timers st = [t] ->
  let st' := fire world t st in
  lintTimeoutId st' = None /\
  timers st' = [] /\
  spawned st' =
    (spawned st ++
     match configFor (world (Z.max (now st) (due t))) (target t) with
     | Some configFile => [lintRequest (target t) configFile]
     | None => []
     end)%list.
Proof.
  intros H. unfold fire, lintCallback, bind, set_lintTimeoutId, modify. simpl.
  rewrite H, filter_cons, filter_nil.
  rewrite decide_False by (intros Hne; apply Hne; reflexivity).
  match goal with
  | |- context [lintTemplate ?w ?d ?s] =>
      pose proof (lintTemplate_frame w d s) as (Hhost & _ & Hsp);
      destruct (lintTemplate w d s) as [[[]|e] st2]
  end; simpl in *; destruct Hhost as (Hid & Htm & _); repeat split; assumption.
Qed.

Lemma armed_slot spawned0 document st :
  armed spawned0 document st -> slot_owns_queue st.
Proof.
  intros (id & Hid & Ht & _). unfold slot_owns_queue. rewrite Hid.
  eexists. split; [exact Ht | reflexivity].
Qed.

Lemma updateDiagnostics_arms document st :
  Str.endsWith ".hbs" (fsPath document) = true ->
  slot_owns_queue st ->
  armed (spawned st) document (snd (updateDiagnostics document st)).
Proof.
  intros Hhbs Hslot. rewrite (updateDiagnostics_template _ _ Hhbs Hslot).
  exists (nextTimerId st). repeat split.
Qed.

(** A request that arrives before the pending timer is due replaces it. *)
Lemma request_rearms world spawned0 previous gap document st :
  armed spawned0 previous st ->
  0 <= gap < DELAY_BEFORE_LINT_MS ->
  Str.endsWith ".hbs" (fsPath document) = true ->
  armed spawned0 document (request world gap document st).
Proof.
  intros (id & Hid & Ht & Hsp) Hgap Hhbs. unfold request.
  rewrite (advance_not_due world _ st _ Ht) by (simpl; lia).
  assert (Hslot : slot_owns_queue (at_time (now st + gap) st)).
  { unfold slot_owns_queue. simpl. rewrite Hid. eexists. split; [exact Ht|reflexivity]. }
  pose proof (updateDiagnostics_arms document _ Hhbs Hslot) as H.
  simpl in H. rewrite Hsp in H. exact H.
Qed.

Lemma last_cons_default {A} (l : list A) (x a b : A) :
  List.last (x :: l) a = List.last (x :: l) b.
Proof.
  revert x. induction l as [|y l IH]; intros x; [reflexivity|].
  change (List.last (y :: l) a = List.last (y :: l) b). apply IH.
Qed.

Lemma last_cons {A} (l : list A) (x a : A) :
  List.last (x :: l) a = List.last l x.
Proof.
  destruct l as [|y l]; [reflexivity|].
  change (List.last (y :: l) a = List.last (y :: l) x). apply last_cons_default.
Qed.

Lemma requests_rearm world spawned0 rest :
  forall current st,
    armed spawned0 current st ->
    Forall (fun gd => 0 <= fst gd < DELAY_BEFORE_LINT_MS /\
                      Str.endsWith ".hbs" (fsPath (snd gd)) = true) rest ->
    armed spawned0 (List.last (map snd rest) current)
          (fold_left (fun st gd => request world (fst gd) (snd gd) st) rest st).
Proof.
  induction rest as [|[gap document] rest IH]; intros current st Harmed Hall.
  - exact Harmed.
  - inversion Hall as [|? ? [Hgap Hhbs] Hrest]; subst. simpl in Hgap, Hhbs.
    change (map snd ((gap, document) :: rest)) with (document :: map snd rest).
    rewrite last_cons. simpl fold_left.
    apply IH; [|exact Hrest].
    apply (request_rearms world spawned0 current); assumption.
Qed.

Lemma lintRequest_targets document configFile :
  targets (lintRequest document configFile) document.
Proof. repeat split. Qed.

(** C4.  A burst of requests for templates ([first], then those of
    [rest]), each less than the delay after the one before, leaves
    exactly one timer pending, that of the last request: every earlier timer, whatever its document, has been
    cancelled and nothing has been started.  However long one then waits,
    at most one child process results, and it is the one for the document
    of the last request. *)
Theorem debounce_burst world first rest st wait :
  slot_owns_queue st ->
  Str.endsWith ".hbs" (fsPath first) = true ->
  Forall (fun gd => 0 <= fst gd < DELAY_BEFORE_LINT_MS /\
                    Str.endsWith ".hbs" (fsPath (snd gd)) = true) rest ->
  let quiet := burst world first rest st in
  let final := advance world (now quiet + wait) quiet in
  let document := last_document first rest in
  (exists id,
     lintTimeoutId quiet = Some id /\
     timers quiet = [mkTimer id (now quiet + DELAY_BEFORE_LINT_MS) document]) /\
  spawned quiet = spawned st /\
  exists started,
    spawned final = (spawned st ++ started)%list /\
    (length started <= 1)%nat /\
    (wait < DELAY_BEFORE_LINT_MS -> started = []) /\
    Forall (fun r => targets r document) started.
Proof.
  intros Hslot Hfirst Hrest quiet final document.
  assert (Harmed : armed (spawned st) document quiet).
  { apply requests_rearm; [|exact Hrest].
    apply updateDiagnostics_arms; assumption. }
  destruct Harmed as (id & Hid & Ht & Hsp).
  split; [exists id; split; assumption|]. split; [exact Hsp|].
  subst final.
  destruct (Z.lt_ge_cases wait DELAY_BEFORE_LINT_MS) as [Hlt|Hge].
  - exists []. rewrite (advance_not_due world _ quiet _ Ht) by (simpl; lia).
    simpl. rewrite Hsp, app_nil_r. repeat split; [lia | constructor].
  - rewrite (advance_due world _ quiet _ Ht) by (simpl; lia). simpl.
    destruct (fire_single world quiet _ Ht) as (_ & _ & Hfired).
    rewrite Hfired, Hsp. simpl.
    destruct (configFor _ document) as [configFile|].
    + exists [lintRequest document configFile]. repeat split; [simpl; lia | lia |].
      constructor; [apply lintRequest_targets | constructor].
    + exists []. repeat split; [simpl; lia | constructor].
Qed.

Lemma debounce_burst_witness :
  let world := Sample.always (Sample.world (Sample.exited 0 EmptyString) None) in
  let rest := [(100, Sample.good); (250, Sample.bad); (499, Sample.good)] in
  let quiet := burst world Sample.bad rest initial in
  let final := advance world (now quiet + 500) quiet in
  (slot_owns_queue initial /\
   Str.endsWith ".hbs" (fsPath Sample.bad) = true /\
   Forall (fun gd => 0 <= fst gd < DELAY_BEFORE_LINT_MS /\
                     Str.endsWith ".hbs" (fsPath (snd gd)) = true) rest) /\
  (exists id,
     lintTimeoutId quiet = Some id /\
     timers quiet = [mkTimer id (now quiet + DELAY_BEFORE_LINT_MS) Sample.good]) /\
  spawned quiet = [] /\
  exists started,
    spawned final = started /\
    (length started <= 1)%nat /\
    (500 < DELAY_BEFORE_LINT_MS -> started = []) /\
    Forall (fun r => targets r Sample.good) started.
Proof.
  intros world rest quiet final.
  assert (H1 : slot_owns_queue initial) by reflexivity.
  assert (H2 : Str.endsWith ".hbs" (fsPath Sample.bad) = true) by reflexivity.
  assert (H3 : Forall (fun gd => 0 <= fst gd < DELAY_BEFORE_LINT_MS /\
                                 Str.endsWith ".hbs" (fsPath (snd gd)) = true) rest).
  { repeat constructor; vm_compute; congruence. }
  split; [repeat split; assumption|].
  exact (debounce_burst world Sample.bad rest initial 500 H1 H2 H3).
Defined.

(** The burst of the witness, run: four requests, one child, for the
    document of the last one. *)
Example burst_runs_one_child :
  let world := Sample.always (Sample.world (Sample.exited 0 EmptyString) None) in
  let rest := [(100, Sample.good); (250, Sample.bad); (499, Sample.good)] in
  let quiet := burst world Sample.bad rest initial in
  spawned (advance world (now quiet + 500) quiet) =
    [lintRequest Sample.good Sample.configFile] /\
  spawned (advance world (now quiet + 499) quiet) = [].
Proof. split; reflexivity. Qed.

(** Without the debounce condition the timers do fire one by one: two
    requests a full delay apart start two children. *)
Example slow_requests_run_two_children :
  let world := Sample.always (Sample.world (Sample.exited 0 EmptyString) None) in
  let quiet := burst world Sample.bad [(500, Sample.good)] initial in
  spawned (advance world (now quiet + 500) quiet) =
    [lintRequest Sample.bad Sample.configFile;
     lintRequest Sample.good Sample.configFile].
Proof. reflexivity. Qed.

(** *** The slot invariant holds in every reachable state *)

Lemma slot_owns_queue_initial : slot_owns_queue initial.
Proof. reflexivity. Qed.

Lemma slot_owns_queue_at_time until st :
  slot_owns_queue st -> slot_owns_queue (at_time until st).
Proof. intros H. exact H. Qed.

Lemma slot_owns_queue_advance world until st :
  slot_owns_queue st -> slot_owns_queue (advance world until st).
Proof.
  intros H. unfold slot_owns_queue in H.
  destruct (lintTimeoutId st) as [id|] eqn:Hid.
  - destruct H as (t & Ht & Htid).
    destruct (Z.lt_ge_cases until (due t)) as [Hlt|Hge].
    + rewrite (advance_not_due world _ _ _ Ht Hlt).
      unfold slot_owns_queue. simpl. rewrite Hid. exists t. split; assumption.
    + rewrite (advance_due world _ _ _ Ht Hge).
      destruct (fire_single world st t Ht) as (Hnone & Hempty & _).
      unfold slot_owns_queue. simpl. rewrite Hnone. exact Hempty.
  - rewrite (advance_idle world _ _ H).
    unfold slot_owns_queue. simpl. rewrite Hid. exact H.
Qed.

Lemma slot_owns_queue_updateDiagnostics document st :
  slot_owns_queue st -> slot_owns_queue (snd (updateDiagnostics document st)).
Proof.
  intros H. destruct (Str.endsWith ".hbs" (fsPath document)) eqn:Hhbs.
  - apply (armed_slot (spawned st) document). apply updateDiagnostics_arms; assumption.
  - rewrite (updateDiagnostics_not_template document st Hhbs). exact H.
Qed.

Lemma slot_owns_queue_request world gap document st :
  slot_owns_queue st -> slot_owns_queue (request world gap document st).
Proof.
  intros H. unfold request.
  apply slot_owns_queue_updateDiagnostics, slot_owns_queue_advance, H.
Qed.

(** * Further properties *)

(** ** What a cycle publishes *)

Ltac next_case :=
  match goal with
  | |- context [match ?x with _ => _ end] =>
      lazymatch x with
      | context [match _ with _ => _ end] => fail
      | _ => destruct x eqn:?
      end
  end.

(** The mapping throws on [null] and on nothing else. *)
Lemma getDiagnosticForLintResult_throws v e :
  getDiagnosticForLintResult v = Throw e <-> v = JNull /\ e = TypeError.
Proof.
  split.
  - destruct v; simpl; intros H; try discriminate. injection H as <-. split; reflexivity.
  - intros [-> ->]. reflexivity.
Qed.

Lemma mapResult_throws items e :
  mapResult getDiagnosticForLintResult items = Throw e <->
  In JNull items /\ e = TypeError.
Proof.
  revert e. induction items as [|v rest IH]; intros e; simpl.
  - split; [discriminate | intros [[] _]].
  - destruct (getDiagnosticForLintResult v) as [d|e'] eqn:Hv.
    + destruct (mapResult getDiagnosticForLintResult rest) as [ds|e''] eqn:Hrest.
      * split; [discriminate|]. intros [[->|Hin] ->]; [discriminate|].
        discriminate (proj2 (IH TypeError) (conj Hin eq_refl)).
      * destruct (proj1 (IH e'') eq_refl) as [Hin ->]. split.
        -- intros [= <-]. split; [right; exact Hin | reflexivity].
        -- intros [_ ->]. reflexivity.
    + apply getDiagnosticForLintResult_throws in Hv as [-> ->]. split.
      * intros [= <-]. split; [left; reflexivity | reflexivity].
      * intros [_ ->]. reflexivity.
Qed.

Lemma lintTemplate_published w document st :
  match published w document with
  | Some diagnostics =>
      fst (lintTemplate w document st) = Ok tt /\
      collection (snd (lintTemplate w document st)) =
        <[uri document := diagnostics]> (collection st)
  | None =>
      fst (lintTemplate w document st) = Throw TypeError /\
      collection (snd (lintTemplate w document st)) = collection st
  end.
Proof.
  unfold published, diagnosticsOf. step_cycle.
  destruct (findUp_sync w ".template-lintrc.js" (Path.dirname (uri document)))
    as [configFile|]; simpl.
  2:{ rewrite lookup_insert_eq. split; reflexivity. }
  destruct (error (spawnSync w _)); simpl.
  { rewrite lookup_insert_eq. split; reflexivity. }
  destruct (negb _ && negb _); simpl.
  2:{ rewrite lookup_insert_eq. split; reflexivity. }
  repeat (next_case; simpl).
  all: rewrite ?lookup_insert_eq; simpl; try (split; reflexivity).
  all: match goal with
       | H : mapResult _ _ = Throw _ |- _ => apply mapResult_throws in H as [_ ->]
       end; split; reflexivity.
Qed.

(** X1.  A cycle is blind to the state it starts from: in one and the same
    world, cycles for a document started from any two states end the same
    way and, when they return, leave the same diagnostics for the
    document. *)
Theorem cycle_ignores_history w document st1 st2 :
  fst (lintTemplate w document st1) = fst (lintTemplate w document st2) /\
  (fst (lintTemplate w document st1) = Ok tt ->
   diagnosticsOf (snd (lintTemplate w document st1)) (uri document) =
   diagnosticsOf (snd (lintTemplate w document st2)) (uri document)).
Proof.
  pose proof (lintTemplate_published w document st1) as H1.
  pose proof (lintTemplate_published w document st2) as H2.
  unfold diagnosticsOf.
  destruct (published w document) as [ds|]; destruct H1 as [-> ->], H2 as [-> ->].
  - split; [reflexivity|]. intros _. rewrite !lookup_insert_eq. reflexivity.
  - split; [reflexivity | discriminate].
Qed.

(** Running a cycle a second time in the same world changes nothing in
    the collection. *)
Corollary cycle_idempotent w document st :
  let once := snd (lintTemplate w document st) in
  collection (snd (lintTemplate w document once)) = collection once.
Proof.
  intros once. subst once.
  pose proof (lintTemplate_published w document st) as H1.
  pose proof (lintTemplate_published w document (snd (lintTemplate w document st))) as H2.
  destruct (published w document) as [ds|].
  - destruct H1 as [_ H1], H2 as [_ H2]. rewrite H2, H1. apply insert_insert_eq.
  - destruct H1 as [_ H1], H2 as [_ H2]. rewrite H2, H1. reflexivity.
Qed.

(** X2.  Cycles for two different documents can run in either order: the
    collection ends up the same. *)
Theorem cycles_commute w1 w2 d1 d2 st :
  uri d1 <> uri d2 ->
  collection (snd (lintTemplate w2 d2 (snd (lintTemplate w1 d1 st)))) =
  collection (snd (lintTemplate w1 d1 (snd (lintTemplate w2 d2 st)))).
Proof.
  intros Hne.
  pose proof (lintTemplate_published w1 d1 st) as A1.
  pose proof (lintTemplate_published w2 d2 (snd (lintTemplate w1 d1 st))) as A2.
  pose proof (lintTemplate_published w2 d2 st) as B2.
  pose proof (lintTemplate_published w1 d1 (snd (lintTemplate w2 d2 st))) as B1.
  destruct (published w1 d1) as [ds1|], (published w2 d2) as [ds2|];
    destruct A1 as [_ A1], A2 as [_ A2], B1 as [_ B1], B2 as [_ B2];
    rewrite A2, A1, B1, B2; try reflexivity.
  apply insert_insert_ne. intros E. apply Hne. symmetry. exact E.
Qed.

Lemma cycles_commute_witness :
  let w := Sample.world (Sample.exited 1 Sample.fatal_output) None in
  uri Sample.bad <> uri Sample.good /\
  collection (snd (lintTemplate w Sample.good (snd (lintTemplate w Sample.bad initial)))) =
  collection (snd (lintTemplate w Sample.bad (snd (lintTemplate w Sample.good initial)))).
Proof.
  intros w.
  assert (H : uri Sample.bad <> uri Sample.good) by discriminate.
  split; [exact H|].
  exact (cycles_commute w w Sample.bad Sample.good initial H).
Defined.



(** X4.  The child's report is taken as it stands: when the child exits
    non-zero and what it wrote parses to a value whose entry for the
    relative path is an array without [null], the cycle returns and sets
    exactly the diagnostics of those issues, one for each, in their
    order, in place of what the document had. *)
Theorem reported_issues_are_published w document st configFile parsed issues diagnostics :
  configFor w document = Some configFile ->
  let result := spawnSync w (lintRequest document configFile) in
  error result = None ->
  status result <> Some 0 ->
  stdout result <> EmptyString ->
  JSON_parse w (parsedText w (stdout result)) = Some parsed ->
  Js.prop (Some parsed) (Path.relative (Path.dirname configFile) (uri document)) =
    Ok (Some (JArr issues)) ->
  mapResult getDiagnosticForLintResult issues = Ok diagnostics ->
  fst (lintTemplate w document st) = Ok tt /\
  collection (snd (lintTemplate w document st)) =
    <[uri document := diagnostics]> (collection st) /\
  length diagnostics = length issues.
Proof.
  intros Hc result He Hs Ho Hp Hk Hm. subst result.
  split; [|split; [|apply (mapResult_length _ _ _ Hm)]].
  all: step_cycle; rewrite Hc; simpl; rewrite He;
    rewrite (bool_decide_eq_false_2 _ Hs);
    apply String.eqb_neq in Ho; rewrite Ho; simpl;
    unfold parsedText, beforeMarker in Hp;
    destruct (bool_decide (env_CI w = Some "true")); simpl;
    [destruct (Z.eqb (Str.indexOf "##[error]" _) (-1)); simpl|];
    rewrite Hp; simpl in Hk |- *; rewrite Hk; simpl; rewrite Hm; reflexivity.
Qed.

Lemma reported_issues_are_published_witness :
  let w := Sample.world (Sample.exited 1 Sample.fatal_output) None in
  let st := Sample.showing (uri Sample.bad) [Sample.earlier] in
  let d := mkDiagnostic (Some (JStr "Parse error on line 1")) Error
                        "ember-template-linter" None None in
  fst (lintTemplate w Sample.bad st) = Ok tt /\
  collection (snd (lintTemplate w Sample.bad st)) =
    <[uri Sample.bad := [d]]> (collection st) /\
  length [d] = 1%nat.
Proof.
  intros w st d.
  apply (reported_issues_are_published w Sample.bad st Sample.configFile
           (JObj [("foo/bad.hbs",
                   JArr [JObj [("fatal", JBool true); ("severity", JNum 2);
                               ("message", JStr "Parse error on line 1")]])])
           [JObj [("fatal", JBool true); ("severity", JNum 2);
                  ("message", JStr "Parse error on line 1")]]
           [d]);
    try reflexivity; discriminate.
Defined.

(** X5.  Exit status 0 means no issues, whatever the child wrote: the output
    is not even parsed, and the cycle publishes the empty list. *)
Theorem clean_exit_publishes_empty w document st configFile :
  configFor w document = Some configFile ->
  let result := spawnSync w (lintRequest document configFile) in
  error result = None ->
  status result = Some 0 ->
  lintTemplate w document st =
  (Ok tt,
   mkState (lintTimeoutId st) (timers st) (nextTimerId st) (now st)
           (<[uri document := []]> (collection st))
           (spawned st ++ [lintRequest document configFile])%list
           (console st ++ [error_computed 0 (fsPath document)])%list
           (uncaught st)).
Proof.
  intros Hc result He Hs. subst result. step_cycle.
  rewrite Hc. simpl. rewrite He, Hs. simpl. reflexivity.
Qed.

Lemma clean_exit_publishes_empty_witness :
  let w := Sample.world (Sample.exited 0 Sample.fatal_output) None in
  let st := Sample.showing (uri Sample.bad) [Sample.earlier] in
  lintTemplate w Sample.bad st =
  (Ok tt,
   mkState None [] 0%nat 0 (<[uri Sample.bad := []]> (collection st))
           [lintRequest Sample.bad Sample.configFile]
           [error_computed 0 "/proj/foo/bad.hbs"] []).
Proof.
  intros w st.
  apply (clean_exit_publishes_empty w Sample.bad st Sample.configFile); reflexivity.
Defined.

(** X6.  A report whose entry for the document is missing or is anything but
    an array (an object, a string, a number, [null]) ends the cycle in a
    TypeError: nothing is published for the document. *)
Theorem entry_not_an_array_throws w document st configFile parsed :
  configFor w document = Some configFile ->
  let result := spawnSync w (lintRequest document configFile) in
  let key := Path.relative (Path.dirname configFile) (uri document) in
  error result = None ->
  status result <> Some 0 ->
  stdout result <> EmptyString ->
  JSON_parse w (parsedText w (stdout result)) = Some parsed ->
  parsed <> JNull ->
  (forall issues, Js.get parsed key <> Some (JArr issues)) ->
  fst (lintTemplate w document st) = Throw TypeError /\
  collection (snd (lintTemplate w document st)) = collection st.
Proof.
  intros Hc result key He Hs Ho Hp Hnull Hentry. subst result key.
  assert (Hk : Js.prop (Some parsed)
                 (Path.relative (Path.dirname configFile) (uri document)) =
               Ok (Js.get parsed (Path.relative (Path.dirname configFile) (uri document)))).
  { destruct parsed; try reflexivity. contradiction Hnull. reflexivity. }
  split.
  all: step_cycle; rewrite Hc; simpl; rewrite He;
    rewrite (bool_decide_eq_false_2 _ Hs);
    apply String.eqb_neq in Ho; rewrite Ho; simpl;
    unfold parsedText, beforeMarker in Hp;
    destruct (bool_decide (env_CI w = Some "true")); simpl;
    [destruct (Z.eqb (Str.indexOf "##[error]" _) (-1)); simpl|];
    rewrite Hp; simpl in Hk |- *; rewrite Hk;
    destruct (Js.get parsed _) as [[| | | |issues|]|] eqn:Hget; simpl;
    try reflexivity; try (contradiction (Hentry issues); reflexivity);
    destruct (Js.member "length" members); reflexivity.
Qed.

Lemma entry_not_an_array_throws_witness :
  let report := "{" ++ Json.quoted "foo/good.hbs" ++ ":[]}" in
  let w := Sample.world (Sample.exited 1 report) None in
  let st := Sample.showing (uri Sample.bad) [Sample.earlier] in
  fst (lintTemplate w Sample.bad st) = Throw TypeError /\
  collection (snd (lintTemplate w Sample.bad st)) = collection st.
Proof.
  intros report w st.
  apply (entry_not_an_array_throws w Sample.bad st Sample.configFile
           (JObj [("foo/good.hbs", JArr [])]));
    try reflexivity; discriminate.
Defined.

(** ** The mapping on arbitrary values *)

(** On anything but [null] the mapping returns, and this is what. *)
Lemma getDiagnosticForLintResult_value (v : json) :
  v <> JNull ->
  getDiagnosticForLintResult v =
  Ok (mkDiagnostic (Js.get v "message")
        (match Js.get v "severity" with
         | Some (JNum 2) => Error
         | _ => Information
         end)
        "ember-template-linter"
        (if Js.truthy (Js.get v "rule") then Js.get v "rule" else None)
        (match Js.get v "line", Js.get v "column" with
         | Some l, Some c => Some (mkRange (minus1 l) (asis c) (minus1 l) (plus1 c))
         | _, _ => None
         end)).
Proof.
  intros Hnull. destruct v; try reflexivity. contradiction Hnull. reflexivity.
Qed.

Lemma getDiagnosticForLintResult_linter_made v d :
  getDiagnosticForLintResult v = Ok d -> linter_made d.
Proof.
  intros Hd.
  assert (Hnull : v <> JNull) by (intros ->; discriminate Hd).
  rewrite (getDiagnosticForLintResult_value v Hnull) in Hd. injection Hd as <-.
  unfold linter_made. simpl. split; [reflexivity|]. split.
  - destruct (Js.get v "severity") as [[| |[|[p|p|]|]| | |]|]; auto;
      destruct p; auto.
  - destruct (Js.truthy (Js.get v "rule")) eqn:Ht; [right; exact Ht | left; reflexivity].
Qed.

Lemma mapResult_linter_made items diagnostics :
  mapResult getDiagnosticForLintResult items = Ok diagnostics ->
  Forall linter_made diagnostics.
Proof.
  revert diagnostics. induction items as [|v rest IH]; intros diagnostics; simpl.
  - intros [= <-]. constructor.
  - destruct (getDiagnosticForLintResult v) as [d|] eqn:Hv; [|discriminate].
    destruct (mapResult getDiagnosticForLintResult rest) as [ds|]; [|discriminate].
    intros [= <-]. constructor.
    + apply (getDiagnosticForLintResult_linter_made v d Hv).
    + apply IH. reflexivity.
Qed.



(** X8.  An entry of the report that is not an object (a number, a string, a
    boolean, an array) has none of the five fields: its diagnostic is
    informational, with no message, no code and no range. *)
Theorem mapping_of_non_object (v : json) :
  v <> JNull ->
  (forall members, v <> JObj members) ->
  getDiagnosticForLintResult v =
  Ok (mkDiagnostic None Information "ember-template-linter" None None).
Proof.
  intros Hnull Hobj.
  destruct v as [|b|n|s|items|members]; try reflexivity.
  - contradiction Hnull. reflexivity.
  - contradiction (Hobj members). reflexivity.
Qed.

Lemma mapping_of_non_object_witness :
  getDiagnosticForLintResult (JStr "Parse error on line 1") =
  Ok (mkDiagnostic None Information "ember-template-linter" None None).
Proof.
  apply (mapping_of_non_object (JStr "Parse error on line 1")).
  - discriminate.
  - intros members. discriminate.
Defined.



(** ** More on the cycle *)

(** What a cycle sets is a list mapped from issues. *)
Lemma published_mapped w document diagnostics :
  published w document = Some diagnostics ->
  exists issues, mapResult getDiagnosticForLintResult issues = Ok diagnostics.
Proof.
  unfold published, diagnosticsOf. step_cycle.
  destruct (findUp_sync w ".template-lintrc.js" (Path.dirname (uri document)))
    as [configFile|]; simpl.
  2:{ rewrite lookup_insert_eq. intros [= <-]. exists []. reflexivity. }
  destruct (error (spawnSync w _)); simpl.
  { rewrite lookup_insert_eq. intros [= <-]. exists []. reflexivity. }
  destruct (negb _ && negb _); simpl.
  2:{ rewrite lookup_insert_eq. intros [= <-]. exists []. reflexivity. }
  repeat (next_case; simpl).
  all: rewrite ?lookup_insert_eq; simpl; try discriminate.
  all: intros [= <-]; first [exists []; reflexivity | eexists; eassumption].
Qed.

Lemma published_linter_made w document diagnostics :
  published w document = Some diagnostics -> Forall linter_made diagnostics.
Proof.
  intros H. destruct (published_mapped w document diagnostics H) as [issues Hm].
  apply (mapResult_linter_made issues diagnostics Hm).
Qed.


(** *** Where the child runs *)

Lemma relative_segments_below (dir rest : Path) :
  Path.relative_segments dir (dir ++ rest)%list = rest.
Proof.
  induction dir as [|x dir IH]; simpl.
  - destruct rest; reflexivity.
  - rewrite String.eqb_refl. exact IH.
Qed.

Lemma prefix_removelast (d l : Path) :
  d `prefix_of` removelast l -> d `prefix_of` l.
Proof.
  intros [k Hk]. destruct l as [|x l] using rev_ind.
  - simpl in Hk. exists k. exact Hk.
  - rewrite removelast_last in Hk. exists (k ++ [x])%list.
    rewrite Hk. rewrite <- app_assoc. reflexivity.
Qed.

(** X11.  The child runs in the directory of the nearest configuration file,
    an ancestor of the document, and is told the document's path below
    that directory: the segments that remain, joined by slashes, with no
    step upward. *)
Theorem child_runs_in_config_directory w document st configFile :
  configFor w document = Some configFile ->
  exists dir below,
    configFile = (dir ++ [".template-lintrc.js"])%list /\
    fileExists w configFile = true /\
    uri document = (dir ++ below)%list /\
    spawned (snd (lintTemplate w document st)) =
      (spawned st ++
       [mkSpawn "./node_modules/.bin/ember-template-lint"
                ["--json"; "--filename"; Str.join "/" below]
                dir LINT_TIMEOUT_MS (getText document)])%list.
Proof.
  intros Hc.
  pose proof (findUp_sync_spec w ".template-lintrc.js" (Path.dirname (uri document))) as Hf.
  unfold configFor in Hc. rewrite Hc in Hf.
  destruct Hf as (dir & Hpre & -> & Hex & _).
  apply prefix_removelast in Hpre as [below Hbelow].
  exists dir, below. repeat split; try assumption.
  destruct (lintTemplate_frame w document st) as (_ & _ & Hsp).
  unfold configFor in Hsp. rewrite Hsp, Hc. unfold lintRequest, Path.dirname, Path.relative.
  rewrite removelast_last, Hbelow, relative_segments_below. reflexivity.
Qed.

Lemma child_runs_in_config_directory_witness :
  let w := Sample.world (Sample.exited 0 EmptyString) None in
  exists dir below,
    Sample.configFile = (dir ++ [".template-lintrc.js"])%list /\
    fileExists w Sample.configFile = true /\
    uri Sample.bad = (dir ++ below)%list /\
    spawned (snd (lintTemplate w Sample.bad initial)) =
      (spawned initial ++
       [mkSpawn "./node_modules/.bin/ember-template-lint"
                ["--json"; "--filename"; Str.join "/" below]
                dir LINT_TIMEOUT_MS (getText Sample.bad)])%list.
Proof.
  intros w.
  apply (child_runs_in_config_directory w Sample.bad initial Sample.configFile).
  reflexivity.
Defined.

(** *** The marker outside its use *)

(** X12.  When the child's output holds no [##[error]], [CI] makes no
    difference to what a cycle returns, publishes and spawns. *)
Theorem CI_is_moot_without_marker w document st ci :
  (forall configFile,
     configFor w document = Some configFile ->
     Str.indexOf "##[error]" (stdout (spawnSync w (lintRequest document configFile))) = -1) ->
  let a := lintTemplate w document st in
  let b := lintTemplate (with_CI ci w) document st in
  fst a = fst b /\
  collection (snd a) = collection (snd b) /\
  spawned (snd a) = spawned (snd b).
Proof.
  intros Hno. step_cycle. unfold findUp_sync in *. simpl in *.
  destruct (findUp_walk (fileExists w) ".template-lintrc.js" _) as [configFile|];
    simpl; [|repeat split].
  specialize (Hno configFile eq_refl).
  destruct (error (spawnSync w _)); simpl; [repeat split|].
  destruct (negb (bool_decide (status _ = Some 0)) && negb (String.eqb _ EmptyString));
    simpl; [|repeat split].
  rewrite Hno. simpl.
  destruct (bool_decide (env_CI w = Some "true")), (bool_decide (ci = Some "true")); simpl.
  all: repeat (next_case; simpl); repeat split.
Qed.

Lemma CI_is_moot_without_marker_witness :
  let w := Sample.world (Sample.exited 1 Sample.fatal_output) None in
  let a := lintTemplate w Sample.bad initial in
  let b := lintTemplate (with_CI (Some "true") w) Sample.bad initial in
  fst a = fst b /\
  collection (snd a) = collection (snd b) /\
  spawned (snd a) = spawned (snd b).
Proof.
  intros w.
  apply (CI_is_moot_without_marker w Sample.bad initial (Some "true")).
  intros configFile Hc. injection Hc as <-. reflexivity.
Defined.

(** ** Requests and the timer *)

(** A request returns at once.  Whatever the state, [updateDiagnostics]
    throws nothing, starts no child and writes nothing to the console;
    it leaves the collection as it is or, for a document that is not a
    template, empty; and for a template it leaves a timer for that
    document, due one delay from now, with its id in the slot. *)
Lemma request_returns_at_once document st :
  let st' := snd (updateDiagnostics document st) in
  fst (updateDiagnostics document st) = Ok tt /\
  spawned st' = spawned st /\
  console st' = console st /\
  uncaught st' = uncaught st /\
  now st' = now st /\
  (if Str.endsWith ".hbs" (fsPath document)
   then collection st' = collection st /\
        exists t, In t (timers st') /\ target t = document /\
                  due t = now st + DELAY_BEFORE_LINT_MS /\
                  lintTimeoutId st' = Some (timerId t)
   else collection st' = ∅ /\ timers st' = timers st /\
        lintTimeoutId st' = lintTimeoutId st).
Proof.
  unfold updateDiagnostics.
  destruct (Str.endsWith ".hbs" (fsPath document)); simpl.
  - unfold bind, gets, clearTimeout, set_lintTimeoutId, setTimeout, modify, ret. simpl.
    destruct (lintTimeoutId st) as [id|]; simpl; repeat split.
    all: eexists; split; [apply in_or_app; right; left; reflexivity | repeat split].
  - repeat split.
Qed.

(** What the firing of the one pending timer leaves. *)
Lemma fire_effect world st t :
  timers st = [t] ->
  let w := world (Z.max (now st) (due t)) in
  let st' := fire world t st in
  lintTimeoutId st' = None /\
  timers st' = [] /\
  now st' = Z.max (now st) (due t) /\
  spawned st' =
    (spawned st ++ match configFor w (target t) with
                   | Some configFile => [lintRequest (target t) configFile]
                   | None => []
                   end)%list /\
  collection st' =
    match published w (target t) with
    | Some diagnostics => <[uri (target t) := diagnostics]> (collection st)
    | None => collection st
    end /\
  uncaught st' =
    (uncaught st ++ match published w (target t) with
                    | Some _ => []
                    | None => [TypeError]
                    end)%list.
Proof.
  intros H. unfold fire, lintCallback, bind, set_lintTimeoutId, modify. simpl.
  rewrite H, filter_cons, filter_nil.
  rewrite decide_False by (intros Hne; apply Hne; reflexivity).
  match goal with
  | |- context [lintTemplate ?w ?d ?s] =>
      pose proof (lintTemplate_frame w d s) as ((Hid & Htm & _ & Hnow & Hun) & _ & Hsp);
      pose proof (lintTemplate_published w d s) as Hp;
      destruct (published w d) as [ds|]; destruct Hp as [Hr Hc];
      destruct (lintTemplate w d s) as [[[]|e] st2]
  end; simpl in *; try discriminate.
  - rewrite app_nil_r. repeat split; assumption.
  - injection Hr as ->. rewrite Hun. repeat split; assumption.
Qed.

(** What the clock leaves when it passes the due time of the one timer. *)
Lemma advance_fires world st t until :
  timers st = [t] -> due t <= until -> now st <= due t ->
  lintTimeoutId (advance world until st) = None /\
  timers (advance world until st) = [] /\
  now (advance world until st) = until /\
  spawned (advance world until st) =
    (spawned st ++ match configFor (world (due t)) (target t) with
                   | Some configFile => [lintRequest (target t) configFile]
                   | None => []
                   end)%list /\
  collection (advance world until st) =
    match published (world (due t)) (target t) with
    | Some diagnostics => <[uri (target t) := diagnostics]> (collection st)
    | None => collection st
    end /\
  uncaught (advance world until st) =
    (uncaught st ++ match published (world (due t)) (target t) with
                    | Some _ => []
                    | None => [TypeError]
                    end)%list.
Proof.
  intros Ht Hdue Hnow.
  rewrite (advance_due world until st t Ht Hdue).
  destruct (fire_effect world st t Ht) as (Hid & Htm & Hn & Hsp & Hc & Hu).
  replace (Z.max (now st) (due t)) with (due t) in * by lia.
  unfold at_time. simpl. rewrite Hn. repeat split; try assumption. lia.
Qed.

(** The requests of a burst leave the collection alone. *)
Lemma requests_keep_collection world spawned0 rest :
  forall current st,
    armed spawned0 current st ->
    Forall (fun gd => 0 <= fst gd < DELAY_BEFORE_LINT_MS /\
                      Str.endsWith ".hbs" (fsPath (snd gd)) = true) rest ->
    collection (fold_left (fun st gd => request world (fst gd) (snd gd) st) rest st) =
    collection st.
Proof.
  induction rest as [|[gap document] rest IH]; intros current st Harmed Hall;
    [reflexivity|].
  inversion Hall as [|? ? [Hgap Hhbs] Hrest]; subst. simpl in Hgap, Hhbs.
  simpl fold_left.
  rewrite (IH document); [| apply (request_rearms world spawned0 current); assumption
                          | exact Hrest].
  destruct Harmed as (id & Hid & Ht & Hsp). unfold request.
  rewrite (advance_not_due world _ st _ Ht) by (simpl; lia).
  rewrite updateDiagnostics_template.
  - reflexivity.
  - exact Hhbs.
  - unfold slot_owns_queue. simpl. rewrite Hid. eexists. split; [exact Ht|reflexivity].
Qed.

(** X13.  The lint does come.  One delay after the last request of a burst the
    cycle for its document has run, once: the slot is free, no timer is
    pending, and the collection holds what that cycle published in the
    world of that moment. *)
Theorem burst_is_linted_after_delay world first rest st wait :
  slot_owns_queue st ->
  Str.endsWith ".hbs" (fsPath first) = true ->
  Forall (fun gd => 0 <= fst gd < DELAY_BEFORE_LINT_MS /\
                    Str.endsWith ".hbs" (fsPath (snd gd)) = true) rest ->
  DELAY_BEFORE_LINT_MS <= wait ->
  let quiet := burst world first rest st in
  let final := advance world (now quiet + wait) quiet in
  let document := last_document first rest in
  let w := world (now quiet + DELAY_BEFORE_LINT_MS) in
  lintTimeoutId final = None /\
  timers final = [] /\
  spawned final =
    (spawned st ++ match configFor w document with
                   | Some configFile => [lintRequest document configFile]
                   | None => []
                   end)%list /\
  collection final =
    match published w document with
    | Some diagnostics => <[uri document := diagnostics]> (collection st)
    | None => collection st
    end.
Proof.
  intros Hslot Hfirst Hrest Hwait quiet final document w.
  assert (Harmed0 : armed (spawned st) first (snd (updateDiagnostics first st)))
    by (apply updateDiagnostics_arms; assumption).
  assert (Harmed : armed (spawned st) document quiet)
    by (apply requests_rearm; assumption).
  assert (Hcol : collection quiet = collection st).
  { unfold quiet, burst.
    rewrite (requests_keep_collection world (spawned st) rest first _ Harmed0 Hrest).
    rewrite (updateDiagnostics_template first st Hfirst Hslot). reflexivity. }
  destruct Harmed as (id & Hid & Ht & Hsp).
  destruct (advance_fires world quiet _ (now quiet + wait) Ht) as (Hi & Htm & _ & Hs & Hc & _);
    [simpl; lia | simpl; unfold DELAY_BEFORE_LINT_MS; lia |].
  cbn [due target] in Hs, Hc. fold w in Hs, Hc. fold final in Hi, Htm, Hs, Hc.
  rewrite Hsp in Hs. rewrite Hcol in Hc. repeat split; assumption.
Qed.

Lemma burst_is_linted_after_delay_witness :
  let world := Sample.always (Sample.world (Sample.exited 1 Sample.fatal_output) None) in
  let rest := [(100, Sample.good); (250, Sample.bad)] in
  let quiet := burst world Sample.good rest initial in
  let final := advance world (now quiet + 500) quiet in
  let w := world (now quiet + DELAY_BEFORE_LINT_MS) in
  lintTimeoutId final = None /\
  timers final = [] /\
  spawned final =
    (spawned initial ++ match configFor w Sample.bad with
                        | Some configFile => [lintRequest Sample.bad configFile]
                        | None => []
                        end)%list /\
  collection final =
    match published w Sample.bad with
    | Some diagnostics => <[uri Sample.bad := diagnostics]> (collection initial)
    | None => collection initial
    end.
Proof.
  intros world rest quiet final w.
  apply (burst_is_linted_after_delay world Sample.good rest initial 500).
  - reflexivity.
  - reflexivity.
  - repeat constructor; vm_compute; congruence.
  - vm_compute. congruence.
Defined.

(** X14.  A request for a document that is not a template empties the
    collection but does not cancel a pending lint: the timer of an
    earlier request for a template stays, fires when it is due and
    publishes into the emptied collection. *)
Theorem pending_lint_survives_non_template world template other st gap wait :
  slot_owns_queue st ->
  Str.endsWith ".hbs" (fsPath template) = true ->
  Str.endsWith ".hbs" (fsPath other) = false ->
  0 <= gap < DELAY_BEFORE_LINT_MS ->
  DELAY_BEFORE_LINT_MS <= gap + wait ->
  let requested := snd (updateDiagnostics template st) in
  let switched := request world gap other requested in
  let final := advance world (now switched + wait) switched in
  let w := world (now st + DELAY_BEFORE_LINT_MS) in
  collection switched = ∅ /\
  timers switched = timers requested /\
  spawned final =
    (spawned st ++ match configFor w template with
                   | Some configFile => [lintRequest template configFile]
                   | None => []
                   end)%list /\
  collection final =
    match published w template with
    | Some diagnostics => {[ uri template := diagnostics ]}
    | None => ∅
    end.
Proof.
  intros Hslot Htemplate Hother Hgap Hwait requested switched final w.
  assert (Hreq : requested =
            mkState (Some (nextTimerId st))
              [mkTimer (nextTimerId st) (now st + DELAY_BEFORE_LINT_MS) template]
              (S (nextTimerId st)) (now st)
              (collection st) (spawned st) (console st) (uncaught st)).
  { unfold requested. rewrite (updateDiagnostics_template template st Htemplate Hslot).
    reflexivity. }
  assert (Hsw : switched =
            mkState (Some (nextTimerId st))
              [mkTimer (nextTimerId st) (now st + DELAY_BEFORE_LINT_MS) template]
              (S (nextTimerId st)) (now st + gap)
              ∅ (spawned st) (console st) (uncaught st)).
  { unfold switched, request.
    rewrite (advance_not_due world _ requested
               (mkTimer (nextTimerId st) (now st + DELAY_BEFORE_LINT_MS) template))
      by (rewrite Hreq; simpl; try reflexivity; lia).
    rewrite (updateDiagnostics_not_template other _ Hother).
    rewrite Hreq. simpl. f_equal. lia. }
  split; [rewrite Hsw; reflexivity|].
  split; [rewrite Hsw, Hreq; reflexivity|].
  subst final. rewrite Hsw. simpl now.
  match goal with
  | |- context [advance world ?u ?s] =>
      destruct (advance_fires world s
                  (mkTimer (nextTimerId st) (now st + DELAY_BEFORE_LINT_MS) template) u)
        as (_ & _ & _ & Hs & Hc & _);
      [reflexivity | simpl; lia | simpl; lia |]
  end.
  cbn [due target spawned collection] in Hs, Hc. fold w in Hs, Hc.
  split; [exact Hs|].
  rewrite Hc. destruct (published w template); reflexivity.
Qed.

Lemma pending_lint_survives_non_template_witness :
  let world := Sample.always (Sample.world (Sample.exited 1 Sample.fatal_output) None) in
  let requested := snd (updateDiagnostics Sample.bad initial) in
  let switched := request world 100 Sample.readme requested in
  let final := advance world (now switched + 400) switched in
  let w := world (now initial + DELAY_BEFORE_LINT_MS) in
  collection switched = ∅ /\
  timers switched = timers requested /\
  spawned final =
    (spawned initial ++ match configFor w Sample.bad with
                        | Some configFile => [lintRequest Sample.bad configFile]
                        | None => []
                        end)%list /\
  collection final =
    match published w Sample.bad with
    | Some diagnostics => {[ uri Sample.bad := diagnostics ]}
    | None => ∅
    end.
Proof.
  intros world requested switched final w.
  apply (pending_lint_survives_non_template world Sample.bad Sample.readme initial 100 400).
  - reflexivity.
  - reflexivity.
  - reflexivity.
  - vm_compute. split; congruence.
  - vm_compute. congruence.
Defined.

(** X15.  Requests a full delay or more apart are each linted: by the time the
    second request is handled, the cycle of the first has run, and the
    second has its own timer pending. *)
Theorem spaced_requests_each_lint world earlier later st gap :
  slot_owns_queue st ->
  Str.endsWith ".hbs" (fsPath earlier) = true ->
  Str.endsWith ".hbs" (fsPath later) = true ->
  DELAY_BEFORE_LINT_MS <= gap ->
  let after := request world gap later (snd (updateDiagnostics earlier st)) in
  let w := world (now st + DELAY_BEFORE_LINT_MS) in
  spawned after =
    (spawned st ++ match configFor w earlier with
                   | Some configFile => [lintRequest earlier configFile]
                   | None => []
                   end)%list /\
  collection after =
    match published w earlier with
    | Some diagnostics => <[uri earlier := diagnostics]> (collection st)
    | None => collection st
    end /\
  exists id,
    lintTimeoutId after = Some id /\
    timers after = [mkTimer id (now st + gap + DELAY_BEFORE_LINT_MS) later].
Proof.
  intros Hslot Hearlier Hlater Hgap after w.
  unfold after, request.
  rewrite (updateDiagnostics_template earlier st Hearlier Hslot). simpl.
  match goal with
  | |- context [advance world ?u ?s] =>
      destruct (advance_fires world s
                  (mkTimer (nextTimerId st) (now st + DELAY_BEFORE_LINT_MS) earlier) u)
        as (Hid & Htm & Hnow & Hs & Hc & _);
      [reflexivity | simpl; lia | simpl; unfold DELAY_BEFORE_LINT_MS; lia |];
      cbn [due target spawned collection] in Hs, Hc; fold w in Hs, Hc;
      rewrite (updateDiagnostics_template later (advance world u s) Hlater)
  end.
  - cbn [fst snd spawned collection timers lintTimeoutId].
    rewrite Hs, Hc, Hnow. repeat split.
    eexists. split; reflexivity.
  - unfold slot_owns_queue. rewrite Hid. exact Htm.
Qed.

Lemma spaced_requests_each_lint_witness :
  let world := Sample.always (Sample.world (Sample.exited 1 Sample.fatal_output) None) in
  let after := request world 500 Sample.good (snd (updateDiagnostics Sample.bad initial)) in
  let w := world (now initial + DELAY_BEFORE_LINT_MS) in
  spawned after =
    (spawned initial ++ match configFor w Sample.bad with
                        | Some configFile => [lintRequest Sample.bad configFile]
                        | None => []
                        end)%list /\
  collection after =
    match published w Sample.bad with
    | Some diagnostics => <[uri Sample.bad := diagnostics]> (collection initial)
    | None => collection initial
    end /\
  exists id,
    lintTimeoutId after = Some id /\
    timers after = [mkTimer id (now initial + 500 + DELAY_BEFORE_LINT_MS) Sample.good].
Proof.
  intros world after w.
  apply (spaced_requests_each_lint world Sample.bad Sample.good initial 500).
  - reflexivity.
  - reflexivity.
  - reflexivity.
  - vm_compute. congruence.
Defined.

(** ** What every reachable state keeps *)

Lemma well_kept_initial : well_kept initial.
Proof.
  unfold well_kept, initial. simpl.
  split; [reflexivity|]. split; [intros t []|]. split; [intros r []|].
  split; [|intros e []].
  intros u diagnostics Hlook. rewrite lookup_empty in Hlook. discriminate.
Qed.

Lemma well_kept_at_time until st : well_kept st -> well_kept (at_time until st).
Proof. intros H. exact H. Qed.

Lemma well_kept_updateDiagnostics document st :
  well_kept st -> well_kept (snd (updateDiagnostics document st)).
Proof.
  intros (Hslot & Htm & Hsp & Hcol & Hun).
  destruct (Str.endsWith ".hbs" (fsPath document)) eqn:Hhbs.
  - rewrite (updateDiagnostics_template document st Hhbs Hslot).
    unfold well_kept, slot_owns_queue. simpl.
    split; [eexists; split; reflexivity|].
    split; [intros t [<-|[]]; exact Hhbs|].
    split; [exact Hsp|]. split; [exact Hcol | exact Hun].
  - rewrite (updateDiagnostics_not_template document st Hhbs).
    unfold well_kept. simpl.
    split; [exact Hslot|]. split; [exact Htm|]. split; [exact Hsp|].
    split; [|exact Hun].
    intros u diagnostics Hlook. rewrite lookup_empty in Hlook. discriminate.
Qed.

Lemma well_kept_fire world st t :
  well_kept st -> timers st = [t] -> well_kept (fire world t st).
Proof.
  intros (Hslot & Htm & Hsp & Hcol & Hun) Ht.
  destruct (fire_effect world st t Ht) as (Hid & Htm' & _ & Hs & Hc & Hu).
  assert (Hhbs : Str.endsWith ".hbs" (fsPath (target t)) = true)
    by (apply Htm; rewrite Ht; left; reflexivity).
  unfold well_kept, slot_owns_queue. rewrite Hid, Htm', Hs, Hc, Hu.
  split; [reflexivity|]. split; [intros ? []|]. split; [|split].
  - intros r Hr. apply in_app_or in Hr as [Hr|Hr]; [apply Hsp, Hr|].
    destruct (configFor _ (target t)) as [configFile|]; [|contradiction].
    destruct Hr as [<-|[]]. exists (target t). split; [exact Hhbs|].
    apply lintRequest_targets.
  - intros u diagnostics Hlook.
    destruct (published _ (target t)) as [ds|] eqn:Hp; [|apply (Hcol u diagnostics Hlook)].
    destruct (decide (uri (target t) = u)) as [<-|Hne].
    + rewrite lookup_insert_eq in Hlook. injection Hlook as <-.
      split; [exact Hhbs | apply (published_linter_made _ _ _ Hp)].
    + rewrite lookup_insert_ne in Hlook by exact Hne. apply (Hcol u diagnostics Hlook).
  - intros e He. apply in_app_or in He as [He|He]; [apply Hun, He|].
    destruct (published _ (target t)); [contradiction|].
    destruct He as [<-|[]]. reflexivity.
Qed.

Lemma well_kept_advance world until st :
  well_kept st -> well_kept (advance world until st).
Proof.
  intros H. pose proof H as (Hslot & _). unfold slot_owns_queue in Hslot.
  destruct (lintTimeoutId st) as [id|].
  - destruct Hslot as (t & Ht & _).
    destruct (Z.lt_ge_cases until (due t)) as [Hlt|Hge].
    + rewrite (advance_not_due world _ _ _ Ht Hlt). exact H.
    + rewrite (advance_due world _ _ _ Ht Hge).
      apply well_kept_at_time, well_kept_fire; assumption.
  - rewrite (advance_idle world _ _ Hslot). exact H.
Qed.

Lemma reachable_well_kept world st : reachable world st -> well_kept st.
Proof.
  induction 1 as [|gap document st _ IH|until st _ IH].
  - apply well_kept_initial.
  - unfold request. apply well_kept_updateDiagnostics, well_kept_advance, IH.
  - apply well_kept_advance, IH.
Qed.

(** X16.  The single timer slot is an invariant: in every reachable state at
    most one timer is pending, and the slot of line 20 holds its id
    exactly when there is one. *)
Theorem one_timer_at_most world st :
  reachable world st ->
  (length (timers st) <= 1)%nat /\
  (lintTimeoutId st = None <-> timers st = []) /\
  (forall id, lintTimeoutId st = Some id -> exists t, timers st = [t] /\ timerId t = id).
Proof.
  intros Hr. destruct (reachable_well_kept world st Hr) as (Hslot & _).
  unfold slot_owns_queue in Hslot.
  destruct (lintTimeoutId st) as [id|].
  - destruct Hslot as (t & Ht & Hid). rewrite Ht. simpl. repeat split.
    + lia.
    + discriminate.
    + discriminate.
    + intros id' [= <-]. exists t. split; [reflexivity | exact Hid].
  - rewrite Hslot. simpl. repeat split; try lia. discriminate.
Qed.

(** X17.  No child is ever started for a document that is not a template:
    every child started in a reachable state is the child of a cycle for
    a document whose path ends in [.hbs]. *)
Theorem children_only_for_templates world st r :
  reachable world st -> In r (spawned st) ->
  exists document,
    Str.endsWith ".hbs" (fsPath document) = true /\ targets r document.
Proof.
  intros Hr Hin. destruct (reachable_well_kept world st Hr) as (_ & _ & Hsp & _).
  apply (Hsp r Hin).
Qed.

(** X18.  Whatever the collection shows in a reachable state is shown for a
    path ending in [.hbs] and was made by the mapping: it bears the
    linter's source and the error or the informational tier. *)
Theorem diagnostics_only_for_templates world st u diagnostics :
  reachable world st -> collection st !! u = Some diagnostics ->
  Str.endsWith ".hbs" (Path.text u) = true /\ Forall linter_made diagnostics.
Proof.
  intros Hr Hlook. destruct (reachable_well_kept world st Hr) as (_ & _ & _ & Hcol & _).
  apply (Hcol u diagnostics Hlook).
Qed.

Lemma one_timer_at_most_witness :
  let world := Sample.always (Sample.world (Sample.exited 1 Sample.fatal_output) None) in
  let st := request world 100 Sample.good (request world 0 Sample.bad initial) in
  reachable world st /\
  (length (timers st) <= 1)%nat /\
  (lintTimeoutId st = None <-> timers st = []) /\
  (forall id, lintTimeoutId st = Some id -> exists t, timers st = [t] /\ timerId t = id).
Proof.
  intros world st.
  assert (H : reachable world st) by (repeat constructor).
  split; [exact H|].
  exact (one_timer_at_most world st H).
Defined.

Lemma children_only_for_templates_witness :
  let world := Sample.always (Sample.world (Sample.exited 1 Sample.fatal_output) None) in
  let st := advance world 600 (request world 0 Sample.bad initial) in
  let r := lintRequest Sample.bad Sample.configFile in
  reachable world st /\ In r (spawned st) /\
  exists document,
    Str.endsWith ".hbs" (fsPath document) = true /\ targets r document.
Proof.
  intros world st r.
  assert (H : reachable world st) by (repeat constructor).
  assert (Hin : In r (spawned st)) by (left; reflexivity).
  split; [exact H|]. split; [exact Hin|].
  exact (children_only_for_templates world st r H Hin).
Defined.

Lemma diagnostics_only_for_templates_witness :
  let world := Sample.always (Sample.world (Sample.exited 1 Sample.fatal_output) None) in
  let st := advance world 600 (request world 0 Sample.bad initial) in
  let d := mkDiagnostic (Some (JStr "Parse error on line 1")) Error
                        "ember-template-linter" None None in
  reachable world st /\ collection st !! uri Sample.bad = Some [d] /\
  Str.endsWith ".hbs" (Path.text (uri Sample.bad)) = true /\ Forall linter_made [d].
Proof.
  intros world st d.
  assert (H : reachable world st) by (repeat constructor).
  assert (Hl : collection st !! uri Sample.bad = Some [d]) by reflexivity.
  split; [exact H|]. split; [exact Hl|].
  exact (diagnostics_only_for_templates world st (uri Sample.bad) [d] H Hl).
Defined.

(** *** Children and requests, counted *)

Lemma advance_counts world until st n :
  slot_owns_queue st ->
  (length (spawned st) + length (timers st) <= n)%nat ->
  (length (spawned (advance world until st)) +
   length (timers (advance world until st)) <= n)%nat.
Proof.
  intros Hslot Hn. unfold slot_owns_queue in Hslot.
  destruct (lintTimeoutId st) as [id|].
  - destruct Hslot as (t & Ht & _).
    destruct (Z.lt_ge_cases until (due t)) as [Hlt|Hge].
    + rewrite (advance_not_due world _ _ _ Ht Hlt). exact Hn.
    + rewrite (advance_due world _ _ _ Ht Hge).
      destruct (fire_single world st t Ht) as (_ & Htm & Hsp).
      unfold at_time. cbn [spawned timers]. rewrite Htm, Hsp, length_app.
      rewrite Ht in Hn. simpl in Hn |- *.
      destruct (configFor _ (target t)); simpl; lia.
  - rewrite (advance_idle world _ _ Hslot). exact Hn.
Qed.

Lemma session_counts world requests :
  forall st n,
    slot_owns_queue st ->
    (length (spawned st) + length (timers st) <= n)%nat ->
    let st' := session world requests st in
    slot_owns_queue st' /\
    (length (spawned st') + length (timers st') <=
     n + length (template_requests requests))%nat.
Proof.
  induction requests as [|[gap document] requests IH]; intros st n Hslot Hn.
  - simpl. split; [exact Hslot | lia].
  - unfold session in *. simpl fold_left.
    pose proof (slot_owns_queue_advance world (now st + gap) st Hslot) as Hslot1.
    pose proof (advance_counts world (now st + gap) st n Hslot Hn) as Hn1.
    unfold template_requests. rewrite filter_cons. cbn [snd].
    destruct (Str.endsWith ".hbs" (fsPath document)) eqn:Hhbs.
    + rewrite decide_True by reflexivity.
      destruct (IH (request world gap document st) (S n)) as [Hs' Hn'].
      * apply slot_owns_queue_request, Hslot.
      * unfold request.
        rewrite (updateDiagnostics_template document _ Hhbs Hslot1).
        cbn [snd spawned timers length]. lia.
      * split; [exact Hs'|]. simpl in Hn' |- *. unfold template_requests in Hn'. lia.
    + rewrite decide_False by discriminate.
      destruct (IH (request world gap document st) n) as [Hs' Hn'].
      * apply slot_owns_queue_request, Hslot.
      * unfold request.
        rewrite (updateDiagnostics_not_template document _ Hhbs). exact Hn1.
      * split; [exact Hs'|]. exact Hn'.
Qed.

(** X19.  The debounce bounds the children from above, over any session and
    however the requests are spaced: no more children are ever started
    than requests for templates were made. *)
Theorem children_bounded_by_requests world requests until :
  (length (spawned (advance world until (session world requests initial))) <=
   length (template_requests requests))%nat.
Proof.
  destruct (session_counts world requests initial 0) as [Hslot Hn];
    [reflexivity | simpl; lia |].
  pose proof (advance_counts world until _ _ Hslot Hn). lia.
Qed.

(** ** The extension's entry points *)

(** [updateDiagnostics] never throws. *)
Lemma updateDiagnostics_returns document st :
  fst (updateDiagnostics document st) = Ok tt.
Proof.
  unfold updateDiagnostics.
  destruct (Str.endsWith ".hbs" (fsPath document)); simpl; [|reflexivity].
  unfold bind, gets, clearTimeout, set_lintTimeoutId, setTimeout, modify, ret. simpl.
  destruct (lintTimeoutId st); reflexivity.
Qed.

Lemma activate_linter p editor world :
  reachable world (Extension.linter (Extension.activate p editor)).
Proof.
  destruct editor as [document|]; simpl.
  - change (reachable world (request world 0 document initial)).
    constructor. constructor.
  - constructor.
Qed.

Lemma step_linter world h timed :
  reachable world (Extension.linter h) ->
  reachable world (Extension.linter (Extension.step world h timed)).
Proof.
  intros Hr. destruct timed as [gap ev]. unfold Extension.step, Extension.on_event. simpl.
  assert (Hlint : forall document,
            reachable world
              (Extension.linter
                 (Extension.lint document
                    (Extension.elapse world (now (Extension.linter h) + gap) h)))).
  { intros document. simpl.
    change (reachable world (request world gap document (Extension.linter h))).
    constructor. exact Hr. }
  assert (Hidle : reachable world
            (Extension.linter (Extension.elapse world (now (Extension.linter h) + gap) h))).
  { simpl. constructor. exact Hr. }
  destruct ev as [d|[d|]|d];
    match goal with |- context [if ?b then _ else _] => destruct b end;
    first [apply Hlint | exact Hidle].
Qed.

(** X20.  Everything the extension does goes through the linter's one entry
    point: after activation and any run of editor events and waiting,
    the linter is in a reachable state, so that all that holds of
    reachable states holds of the running extension. *)
Theorem extension_stays_reachable world p editor events :
  reachable world
    (Extension.linter (Extension.run world events (Extension.activate p editor))).
Proof.
  unfold Extension.run.
  generalize (activate_linter p editor world).
  generalize (Extension.activate p editor) as h.
  induction events as [|timed events IH]; intros h Hr; simpl.
  - exact Hr.
  - apply IH, step_linter, Hr.
Qed.

(** X21.  On activation the template in the active editor is linted one delay
    later, and only it: with no active editor, or one that shows
    something else, activation schedules nothing. *)
Theorem activation_lints_active_template world p editor until :
  DELAY_BEFORE_LINT_MS <= until ->
  let h := Extension.elapse world until (Extension.activate p editor) in
  let w := world DELAY_BEFORE_LINT_MS in
  spawned (Extension.linter h) =
    match editor with
    | Some document =>
        if Str.endsWith ".hbs" (fsPath document)
        then match configFor w document with
             | Some configFile => [lintRequest document configFile]
             | None => []
             end
        else []
    | None => []
    end /\
  timers (Extension.linter h) = [] /\
  Extension.subscriptions h =
    [Extension.TheOutputChannel; Extension.OnDidSaveTextDocument;
     Extension.OnDidChangeActiveTextEditor; Extension.OnDidChangeTextDocument] /\
  Extension.outputChannel h = Some (Extension.banner "Activating" p).
Proof.
  intros Huntil h w. subst h. unfold Extension.elapse, Extension.activate. 
  destruct editor as [document|]; cbn [Extension.linter Extension.outputChannel
    Extension.subscriptions Extension.lint Extension.log Extension.loaded app].
  - destruct (Str.endsWith ".hbs" (fsPath document)) eqn:Hhbs.
    + rewrite (updateDiagnostics_template document initial Hhbs slot_owns_queue_initial).
      cbn [snd].
      match goal with
      | |- context [advance world until ?s] =>
          destruct (advance_fires world s
                      (mkTimer 0 (0 + DELAY_BEFORE_LINT_MS) document) until)
            as (_ & Htm & _ & Hs & _);
          [reflexivity | simpl; lia | simpl; unfold DELAY_BEFORE_LINT_MS; lia |]
      end.
      cbn [due target spawned] in Hs. rewrite Hs, Htm. repeat split.
    + rewrite (updateDiagnostics_not_template document initial Hhbs). cbn [snd].
      rewrite advance_idle by reflexivity. repeat split.
  - rewrite advance_idle by reflexivity. repeat split.
Qed.

Lemma activation_lints_active_template_witness :
  let world := Sample.always (Sample.world (Sample.exited 0 EmptyString) None) in
  let p := Extension.mkPackage "grconrad" "vscode-ember-template-lint" "0.0.1" in
  let h := Extension.elapse world 500 (Extension.activate p (Some Sample.bad)) in
  spawned (Extension.linter h) = [lintRequest Sample.bad Sample.configFile] /\
  timers (Extension.linter h) = [] /\
  Extension.subscriptions h =
    [Extension.TheOutputChannel; Extension.OnDidSaveTextDocument;
     Extension.OnDidChangeActiveTextEditor; Extension.OnDidChangeTextDocument] /\
  Extension.outputChannel h =
    Some "Activating grconrad.vscode-ember-template-lint@0.0.1".
Proof.
  intros world p h.
  apply (activation_lints_active_template world p (Some Sample.bad) 500).
  vm_compute. congruence.
Defined.

Lemma updateDiagnostics_quiet document st :
  let st' := snd (updateDiagnostics document st) in
  spawned st' = spawned st /\ console st' = console st /\
  uncaught st' = uncaught st /\ now st' = now st.
Proof.
  unfold updateDiagnostics.
  destruct (Str.endsWith ".hbs" (fsPath document)); simpl; [|repeat split].
  unfold bind, gets, clearTimeout, set_lintTimeoutId, setTimeout, modify, ret. simpl.
  destruct (lintTimeoutId st); repeat split.
Qed.

Lemma on_event_channel ev h :
  Extension.outputChannel (Extension.on_event ev h) = Extension.outputChannel h /\
  Extension.subscriptions (Extension.on_event ev h) = Extension.subscriptions h.
Proof.
  destruct ev as [d|[d|]|d]; simpl;
    match goal with |- context [if ?b then _ else _] => destruct b end;
    split; reflexivity.
Qed.

Lemma run_channel world events :
  forall h,
    Extension.outputChannel (Extension.run world events h) = Extension.outputChannel h /\
    Extension.subscriptions (Extension.run world events h) = Extension.subscriptions h.
Proof.
  unfold Extension.run.
  induction events as [|[gap ev] events IH]; intros h; simpl; [split; reflexivity|].
  destruct (IH (Extension.step world h (gap, ev))) as [-> ->].
  unfold Extension.step.
  destruct (on_event_channel (snd (gap, ev))
              (Extension.elapse world (now (Extension.linter h) + fst (gap, ev)) h))
    as [-> ->].
  split; reflexivity.
Qed.

(** X22.  The listeners return at once: no editor event, of whatever kind and
    for whatever document, starts a child, writes to the console or the
    output channel, or lets an error out.  Children are started from the
    timer alone. *)
Theorem listeners_never_block ev h :
  let h' := Extension.on_event ev h in
  spawned (Extension.linter h') = spawned (Extension.linter h) /\
  console (Extension.linter h') = console (Extension.linter h) /\
  uncaught (Extension.linter h') = uncaught (Extension.linter h) /\
  Extension.outputChannel h' = Extension.outputChannel h /\
  Extension.subscriptions h' = Extension.subscriptions h.
Proof.
  intros h'. subst h'.
  destruct (on_event_channel ev h) as [-> ->].
  assert (Hlint : forall d,
            spawned (Extension.linter (Extension.lint d h)) = spawned (Extension.linter h) /\
            console (Extension.linter (Extension.lint d h)) = console (Extension.linter h) /\
            uncaught (Extension.linter (Extension.lint d h)) = uncaught (Extension.linter h)).
  { intros d. destruct (updateDiagnostics_quiet d (Extension.linter h)) as (? & ? & ? & _).
    repeat split; assumption. }
  destruct ev as [d|[d|]|d]; simpl;
    match goal with |- context [if ?b then _ else _] => destruct b end;
    try (destruct (Hlint d) as (? & ? & ?)); repeat split; assumption.
Qed.

(** X23.  Closing the last editor and switching to a file of another kind are
    not the same to the extension: an active-editor change to no editor
    leaves everything as it is, the diagnostics too, while a change to an
    editor on a document that is not a template empties the collection. *)
Theorem no_editor_keeps_diagnostics world p editor events document :
  Str.endsWith ".hbs" (fsPath document) = false ->
  let h := Extension.run world events (Extension.activate p editor) in
  Extension.on_event (Extension.DidChangeActiveTextEditor None) h = h /\
  collection (Extension.linter
                (Extension.on_event (Extension.DidChangeActiveTextEditor (Some document)) h))
  = ∅.
Proof.
  intros Hother h.
  assert (Hl : Extension.listening Extension.OnDidChangeActiveTextEditor h = true).
  { unfold Extension.listening, h.
    destruct (run_channel world events (Extension.activate p editor)) as [_ ->].
    destruct editor; reflexivity. }
  unfold Extension.on_event. rewrite Hl. split; [reflexivity|].
  simpl. rewrite (updateDiagnostics_not_template document _ Hother). reflexivity.
Qed.

Lemma no_editor_keeps_diagnostics_witness :
  let world := Sample.always (Sample.world (Sample.exited 1 Sample.fatal_output) None) in
  let p := Extension.mkPackage "grconrad" "vscode-ember-template-lint" "0.0.1" in
  let h := Extension.run world [(600, Extension.DidSaveTextDocument Sample.good)]
             (Extension.activate p (Some Sample.bad)) in
  Extension.on_event (Extension.DidChangeActiveTextEditor None) h = h /\
  collection (Extension.linter
                (Extension.on_event
                   (Extension.DidChangeActiveTextEditor (Some Sample.readme)) h))
  = ∅.
Proof.
  intros world p h.
  apply (no_editor_keeps_diagnostics world p (Some Sample.bad)
           [(600, Extension.DidSaveTextDocument Sample.good)] Sample.readme).
  reflexivity.
Defined.

(** X24.  The output channel gets the activation line when the extension is
    activated and the deactivation line, appended to it with nothing in
    between, when it is deactivated; no editor event writes to it.  A
    [deactivate] on a module that was never activated writes nothing and
    throws nothing. *)
Theorem channel_holds_the_two_banners world p editor events :
  let h := Extension.run world events (Extension.activate p editor) in
  Extension.outputChannel h = Some (Extension.banner "Activating" p) /\
  Extension.outputChannel (Extension.deactivate p h) =
    Some (Extension.banner "Activating" p ++ Extension.banner "Deactivated" p) /\
  Extension.deactivate p Extension.loaded = Extension.loaded.
Proof.
  intros h.
  assert (Hc : Extension.outputChannel h = Some (Extension.banner "Activating" p)).
  { unfold h. destruct (run_channel world events (Extension.activate p editor)) as [-> _].
    destruct editor; reflexivity. }
  split; [exact Hc|]. split; [|reflexivity].
  unfold Extension.deactivate, Extension.log. rewrite Hc. reflexivity.
Qed.

(** ** The mapping, then and now *)



(** ** The text before the marker *)

Lemma length_substring (s : string) :
  forall n k, String.length (String.substring n k s) = Nat.min k (String.length s - n).
Proof.
  induction s as [|c s IH]; intros n k.
  - destruct n, k; simpl; lia.
  - destruct n as [|n].
    + destruct k as [|k]; simpl; [reflexivity|]. rewrite IH. lia.
    + simpl. apply IH.
Qed.

Lemma substring_of_prefix (s : string) :
  forall j k m, (j + k <= m)%nat ->
    String.substring j k (String.substring 0 m s) = String.substring j k s.
Proof.
  induction s as [|c s IH]; intros j k m Hle.
  - destruct m; reflexivity.
  - destruct m as [|m].
    + assert (j = 0%nat) by lia. assert (k = 0%nat) by lia. subst. reflexivity.
    + simpl. destruct j as [|j].
      * destruct k as [|k]; [reflexivity|]. f_equal. apply IH. lia.
      * apply IH. lia.
Qed.

Lemma substring_all (s : string) :
  forall k, (String.length s <= k)%nat -> String.substring 0 k s = s.
Proof.
  induction s as [|c s IH]; intros k Hk.
  - destruct k; reflexivity.
  - destruct k as [|k]; simpl in *; [lia|]. f_equal. apply IH. lia.
Qed.

Lemma substring_split (s : string) :
  forall m k, (String.length s - m <= k)%nat ->
    String.substring 0 m s ++ String.substring m k s = s.
Proof.
  induction s as [|c s IH]; intros m k Hk.
  - destruct m, k; reflexivity.
  - destruct m as [|m].
    + destruct k as [|k]; [simpl in Hk; lia|].
      change (String c (String.substring 0 k s) = String c s).
      f_equal. apply substring_all. simpl in Hk. lia.
    + change (String c (String.substring 0 m s ++ String.substring m k s) = String c s).
      f_equal. apply IH. simpl in Hk. lia.
Qed.

Lemma indexOf_none needle s :
  Str.indexOf needle s = -1 <-> String.index 0 needle s = None.
Proof.
  unfold Str.indexOf. destruct (String.index 0 needle s); split; try discriminate; try reflexivity.
  lia.
Qed.

(** Cutting at the first marker leaves no marker. *)
Lemma beforeMarker_marker_free output :
  Str.indexOf "##[error]" (beforeMarker output) = -1.
Proof.
  unfold beforeMarker.
  destruct (Z.eqb_spec (Str.indexOf "##[error]" output) (-1)) as [E|E]; [exact E|].
  unfold Str.indexOf in *.
  destruct (String.index 0 "##[error]" output) as [m|] eqn:Hm; [|contradiction E; reflexivity].
  unfold Str.substring0. rewrite Nat2Z.id.
  destruct (String.index 0 "##[error]" (String.substring 0 m output)) as [j|] eqn:Hj;
    [|reflexivity].
  exfalso.
  pose proof (String.index_correct1 _ _ _ _ Hj) as Hat.
  assert (Hlen : (j + 9 <= m)%nat).
  { apply (f_equal String.length) in Hat.
    rewrite !length_substring in Hat. simpl String.length in Hat. lia. }
  rewrite substring_of_prefix in Hat by exact Hlen.
  apply (String.index_correct2 _ _ _ _ Hm j); [lia | lia | exact Hat].
Qed.

(** X26.  What reaches the parser under [CI=true] is the output up to its
    first [##[error]]: a prefix of the output in which the marker does
    not occur, the whole output when it holds no marker; cutting twice
    cuts no more. *)
Theorem text_before_marker output :
  (exists rest, output = beforeMarker output ++ rest) /\
  Str.indexOf "##[error]" (beforeMarker output) = -1 /\
  (Str.indexOf "##[error]" output = -1 -> beforeMarker output = output) /\
  beforeMarker (beforeMarker output) = beforeMarker output.
Proof.
  split; [|split; [apply beforeMarker_marker_free|split]].
  - unfold beforeMarker.
    destruct (Z.eqb (Str.indexOf "##[error]" output) (-1)).
    + exists EmptyString. clear. induction output as [|c s IH]; [reflexivity|].
      change (String c s = String c (s ++ EmptyString)). f_equal. exact IH.
    + eexists. symmetry. unfold Str.substring0.
      apply (substring_split output _ (String.length output)). lia.
  - intros H. unfold beforeMarker. rewrite H. reflexivity.
  - unfold beforeMarker at 1. rewrite beforeMarker_marker_free. reflexivity.
Qed.

(** X27.  Under [CI=true] the parser is never handed a text in which the
    marker occurs: a cycle runs the same, to the last console line, with
    a parser that refuses every such text. *)
Theorem parser_never_sees_marker_in_CI w document st :
  env_CI w = Some "true" ->
  lintTemplate w document st = lintTemplate (guarded w) document st.
Proof.
  intros Hci. step_cycle. unfold findUp_sync. simpl.
  destruct (findUp_walk (fileExists w) ".template-lintrc.js" _) as [configFile|];
    simpl; [|reflexivity].
  destruct (error (spawnSync w _)); simpl; [reflexivity|].
  destruct (negb (bool_decide (status _ = Some 0)) && negb (String.eqb _ EmptyString));
    simpl; [|reflexivity].
  rewrite Hci. simpl.
  match goal with
  | |- context [Z.eqb (Str.indexOf "##[error]" ?out) (-1)] =>
      pose proof (beforeMarker_marker_free out) as Hfree;
      unfold beforeMarker in Hfree;
      destruct (Z.eqb (Str.indexOf "##[error]" out) (-1)) eqn:E; simpl
  end.
  - rewrite E. reflexivity.
  - rewrite Hfree. reflexivity.
Qed.

Lemma parser_never_sees_marker_in_CI_witness :
  let out := Sample.fatal_output ++ "##[error]Process completed with exit code 1." in
  let w := Sample.world (Sample.exited 1 out) (Some "true") in
  lintTemplate w Sample.bad initial = lintTemplate (guarded w) Sample.bad initial.
Proof.
  intros out w.
  apply (parser_never_sees_marker_in_CI w Sample.bad initial). reflexivity.
Defined.

(** ** The asynchronous revision *)

(** What [publish] does to the collection. *)
Lemma Async_publish_effect document lintIssues st :
  match lintIssues with
  | Some (JArr issues) =>
      match mapResult getDiagnosticForLintResult issues with
      | Ok diagnostics =>
          fst (Async.publish document lintIssues st) = Ok tt /\
          Async.collection (snd (Async.publish document lintIssues st)) =
            <[uri document := diagnostics]> (Async.collection st)
      | Throw _ =>
          fst (Async.publish document lintIssues st) = Throw TypeError /\
          Async.collection (snd (Async.publish document lintIssues st)) = Async.collection st
      end
  | _ =>
      fst (Async.publish document lintIssues st) = Throw TypeError /\
      Async.collection (snd (Async.publish document lintIssues st)) = Async.collection st
  end.
Proof.
  unfold Async.publish.
  destruct lintIssues as [[| | | |issues|]|]; try (split; reflexivity).
  destruct (mapResult getDiagnosticForLintResult issues) as [ds|e] eqn:Hm;
    [split; reflexivity|].
  apply mapResult_throws in Hm as [_ ->]. split; reflexivity.
Qed.

(** The rest of a cycle is a [publish] of a value that the frame and the
    outcome decide, after some lines on the console. *)
Lemma Async_resume_as_publish w frame outcome :
  exists lintIssues logs,
    forall st,
      Async.lintTemplate_resume w frame outcome st =
      Async.publish (Async.document frame) lintIssues
        (Async.mkState (Async.collection st) (Async.started st)
                       (Async.console st ++ logs)%list).
Proof.
  unfold Async.lintTemplate_resume, Async.write.
  destruct outcome as [|[timedOut stdout]]; cbn [Async.timedOut Async.stdout].
  { exists (Some (JArr [])), []. intros [c s l]. simpl. rewrite app_nil_r. reflexivity. }
  destruct timedOut; cbn [negb].
  { exists (Some (JArr [])), [Async.error_timed_out]. intros st. reflexivity. }
  destruct (bool_decide (stdout = Some EmptyString)); cbn [negb].
  { exists (Some (JArr [])), []. intros [c s l]. simpl. rewrite app_nil_r. reflexivity. }
  destruct stdout as [text|].
  2:{ exists (Some (JArr [])),
        [Async.error_unparsable (Async.mkExecaError false None) SyntaxError].
      intros st. reflexivity. }
  destruct (JSON_parse w text) as [jsonResult|].
  2:{ exists (Some (JArr [])),
        [Async.error_unparsable (Async.mkExecaError false (Some text)) SyntaxError].
      intros st. reflexivity. }
  destruct (Js.prop (Some jsonResult) _) as [lintIssues|e].
  2:{ exists (Some (JArr [])),
        [Async.error_unparsable (Async.mkExecaError false (Some text)) e].
      intros st. reflexivity. }
  destruct (Js.prop lintIssues "length") as [len|e].
  - exists lintIssues, [Async.log_found len]. intros st. reflexivity.
  - exists lintIssues, [Async.error_unparsable (Async.mkExecaError false (Some text)) e].
    intros st. reflexivity.
Qed.

(** X28.  The last to settle wins.  What a settling cycle does to the
    collection is decided by its own frame and outcome: after any other
    cycle has settled before it, with whatever outcome and whichever of
    the two was begun first, it ends as it would have alone and shows for
    its document what it would have shown alone. *)
Theorem last_settled_wins w1 w2 frame1 frame2 outcome1 outcome2 st :
  let between := snd (Async.lintTemplate_resume w1 frame1 outcome1 st) in
  let alone := Async.lintTemplate_resume w2 frame2 outcome2 st in
  let last := Async.lintTemplate_resume w2 frame2 outcome2 between in
  fst last = fst alone /\
  (fst alone = Ok tt ->
   Async.diagnosticsOf (snd last) (uri (Async.document frame2)) =
   Async.diagnosticsOf (snd alone) (uri (Async.document frame2))) /\
  (fst alone <> Ok tt -> Async.collection (snd last) = Async.collection between).
Proof.
  intros between alone last. subst alone last.
  destruct (Async_resume_as_publish w2 frame2 outcome2) as (v & logs & Hres).
  rewrite !Hres.
  match goal with
  | |- context [Async.publish ?d v ?s1] =>
      match goal with
      | |- context [Async.publish d v ?s2] =>
          lazymatch s1 with
          | s2 => fail
          | _ => pose proof (Async_publish_effect d v s1) as H1;
                 pose proof (Async_publish_effect d v s2) as H2
          end
      end
  end.
  unfold Async.diagnosticsOf.
  destruct v as [[| | | |issues|]|];
    try (destruct H1 as [-> ->], H2 as [-> ->];
         split; [reflexivity|]; split; [discriminate | reflexivity]).
  destruct (mapResult getDiagnosticForLintResult issues) as [ds|e];
    destruct H1 as [-> ->], H2 as [-> ->].
  - split; [reflexivity|]. split.
    + intros _. rewrite !lookup_insert_eq. reflexivity.
    + intros H. contradiction H. reflexivity.
  - split; [reflexivity|]. split; [discriminate | reflexivity].
Qed.



(** X30.  While the child runs the collection is not touched.  With a
    configuration file, the first half of the cycle starts one child
    through the shell, in the directory of the nearest configuration
    file and for the document's path below it, and suspends; what was
    shown for the document stays until the child has settled.  Without
    one, nothing is awaited and the empty list is published at once. *)
Theorem begin_leaves_diagnostics w document st :
  match findUp_sync w ".template-lintrc.js" (Path.dirname (uri document)) with
  | Some configFile =>
      exists dir below,
        configFile = (dir ++ [".template-lintrc.js"])%list /\
        uri document = (dir ++ below)%list /\
        Async.lintTemplate_begin w document st =
        (inr (Async.mkSuspended document (Str.join "/" below)),
         Async.mkState (Async.collection st)
           (Async.started st ++
            [Async.mkCall "./node_modules/.bin/ember-template-lint"
                          ["--json"; "--filename"; Str.join "/" below]
                          dir LINT_TIMEOUT_MS true (getText document)])%list
           (Async.console st))
  | None =>
      Async.lintTemplate_begin w document st =
      (inl (Ok tt),
       Async.mkState (<[uri document := []]> (Async.collection st)) (Async.started st)
         (Async.console st ++ [Async.error_computed 0 (fsPath document)])%list)
  end.
Proof.
  pose proof (findUp_sync_spec w ".template-lintrc.js" (Path.dirname (uri document))) as Hf.
  unfold Async.lintTemplate_begin.
  destruct (findUp_sync w ".template-lintrc.js" (Path.dirname (uri document)))
    as [configFile|]; [|reflexivity].
  destruct Hf as (dir & Hpre & -> & _ & _).
  apply prefix_removelast in Hpre as [below Hbelow].
  exists dir, below. split; [reflexivity|]. split; [exact Hbelow|].
  unfold Path.dirname, Path.relative.
  rewrite removelast_last, Hbelow, relative_segments_below. reflexivity.
Qed.
